(** * VSCode Dock: the item store and its status-bar projection

    A shallow embedding of [src/dockProvider.ts] (class [DockProvider]).
    The provider object becomes a record that is threaded through every
    method; each answer that a dialog of the host gives
    ([showInputBox], [showQuickPick], [showOpenDialog],
    [showWarningMessage]) is an argument of the method that asks for it,
    with [None] for [undefined] (the user dismissed the dialog). *)

From stdpp Require Import base option list strings gmap pretty.
From Stdlib Require Import ZArith Lia.

Set Warnings "-register-all".

(** ** JavaScript values used by the provider *)

(** [!!s] for a string that may be [undefined]: defined and non-empty. *)
Definition truthy (o : option string) : bool :=
  match o with
  | Some s => negb (bool_decide (s = ""))
  | None => false
  end.

(** [a || b] where [a] may be [undefined] and [b] is a string. *)
Definition or_else (a : option string) (b : string) : string :=
  match a with
  | Some s => if bool_decide (s = "") then b else s
  | None => b
  end.

(** [a || undefined]. *)
Definition or_undefined (a : option string) : option string :=
  if truthy a then a else None.

(** The double-quote character, and [s] between two of them. *)
Definition dquote : string :=
  String (Ascii.Ascii false true false false false true false false) EmptyString.

Definition quoted (s : string) : string := dquote +:+ s +:+ dquote.

(** [s.includes(sub)]. *)
Fixpoint includes (s sub : string) : bool :=
  String.prefix sub s ||
  match s with
  | EmptyString => false
  | String _ s' => includes s' sub
  end.

(** [s.length] counts UTF-16 code units, and a string is held here as its
    UTF-8 bytes.  A byte below 0x80 and the first byte of a sequence of two
    or three bytes start a character of one unit, the first byte of a
    sequence of four bytes starts a character of two units (a surrogate
    pair), and a continuation byte (0x80 to 0xBF) starts none. *)
Definition utf16_units (b : Ascii.ascii) : nat :=
  let n := Ascii.nat_of_ascii b in
  if n <? 128 then 1 else if n <? 192 then 0 else if n <? 240 then 1 else 2.

Fixpoint js_length (s : string) : nat :=
  match s with
  | EmptyString => 0
  | String b s' => utf16_units b + js_length s'
  end.

(** [Array.prototype.slice(0, e)] for an integer [e]: a negative end counts
    from the back, and the result is clamped to the array. *)
Definition slice0 {A} (l : list A) (e : Z) : list A :=
  let len := Z.of_nat (length l) in
  let final := if (e <? 0)%Z then Z.max (len + e) 0 else Z.min e len in
  take (Z.to_nat final) l.

(** [Array.prototype.findIndex] with the predicate [i => i.id === key]. *)
Fixpoint findIndex {A} (f : A → bool) (l : list A) : option nat :=
  match l with
  | [] => None
  | x :: l' => if f x then Some 0 else S <$> findIndex f l'
  end.

(** The destructuring swap [[a[i], a[j]] = [a[j], a[i]]]: both reads happen
    before both writes. *)
Definition swap {A} (l : list A) (i j : nat) : list A :=
  match l !! i, l !! j with
  | Some x, Some y => <[j:=x]> (<[i:=y]> l)
  | _, _ => l
  end.

(** What reading a property of an object literal yields.  An own property of
    the literals in this file is a string; a name that the literal does not
    define is looked up in [Object.prototype], whose members are functions
    (and, for [__proto__], the prototype object itself). *)
Inductive JsValue :=
  | JsString (s : string)
  | JsInherited (key : string).

Definition objectPrototypeKeys : list string :=
  [ "constructor"; "hasOwnProperty"; "isPrototypeOf"; "propertyIsEnumerable";
    "toLocaleString"; "toString"; "valueOf"; "__proto__";
    "__defineGetter__"; "__defineSetter__"; "__lookupGetter__";
    "__lookupSetter__" ].

(** [obj[key]] for an object literal [obj] with the own properties [own]. *)
Definition js_get (own : gmap string string) (key : string) : option JsValue :=
  match own !! key with
  | Some s => Some (JsString s)
  | None =>
      if bool_decide (key ∈ objectPrototypeKeys)
      then Some (JsInherited key) else None
  end.

(** [v || d]: every object is truthy, a string is truthy unless empty. *)
Definition js_or (v : option JsValue) (d : string) : JsValue :=
  match v with
  | Some (JsString s) => JsString (if bool_decide (s = "") then d else s)
  | Some (JsInherited k) => JsInherited k
  | None => JsString d
  end.

(** String coercion, as string concatenation and template literals do it.
    The text of a built-in function is the one V8 prints. *)
Definition js_to_string (v : JsValue) : string :=
  match v with
  | JsString s => s
  | JsInherited k =>
      if bool_decide (k = "__proto__") then "[object Object]"
      else if bool_decide (k = "constructor")
           then "function Object() { [native code] }"
           else "function " +:+ k +:+ "() { [native code] }"
  end.

(** ** Data model *)

Inductive ItemType := app | file | folder | link | folder_group.

Global Instance ItemType_eq_dec : EqDecision ItemType.
Proof. solve_decision. Defined.

(** [interface DockItem]; an optional field is an [option]. *)
Inductive DockItem := mkDockItem {
  id : string;
  type : ItemType;
  name : string;
  title : option string;
  path : option string;
  url : option string;
  icon : option string;
  color : option string;
  children : option (list DockItem);
  command : option string
}.

Definition set_name (n : string) (it : DockItem) : DockItem :=
  mkDockItem (id it) (type it) n (title it) (path it) (url it) (icon it)
             (color it) (children it) (command it).
Definition set_title (t : option string) (it : DockItem) : DockItem :=
  mkDockItem (id it) (type it) (name it) t (path it) (url it) (icon it)
             (color it) (children it) (command it).
Definition set_url (u : option string) (it : DockItem) : DockItem :=
  mkDockItem (id it) (type it) (name it) (title it) (path it) u (icon it)
             (color it) (children it) (command it).
Definition set_icon (i : option string) (it : DockItem) : DockItem :=
  mkDockItem (id it) (type it) (name it) (title it) (path it) (url it) i
             (color it) (children it) (command it).
Definition set_color (c : option string) (it : DockItem) : DockItem :=
  mkDockItem (id it) (type it) (name it) (title it) (path it) (url it)
             (icon it) c (children it) (command it).
Definition set_children (cs : option (list DockItem)) (it : DockItem) : DockItem :=
  mkDockItem (id it) (type it) (name it) (title it) (path it) (url it)
             (icon it) (color it) cs (command it).
Definition set_command (c : option string) (it : DockItem) : DockItem :=
  mkDockItem (id it) (type it) (name it) (title it) (path it) (url it)
             (icon it) (color it) (children it) c.

(** The string that [item.type] holds. *)
Definition type_string (t : ItemType) : string :=
  match t with
  | app => "app" | file => "file" | folder => "folder" | link => "link"
  | folder_group => "folder-group"
  end.

(** A method receives a [DockItem] object that lives in the provider's
    list, at the top level or among the children of a top-level object; the
    reference is modelled by the position of the object.  A position that
    holds no object stands for no call: the methods below then leave the
    provider as it is. *)
Inductive ItemRef :=
  | TopLevel (i : nat)
  | InFolder (i j : nat).

Definition deref (l : list DockItem) (r : ItemRef) : option DockItem :=
  match r with
  | TopLevel i => l !! i
  | InFolder i j =>
      match l !! i with
      | Some f => match children f with Some cs => cs !! j | None => None end
      | None => None
      end
  end.

(** Writes the state of the mutated object back to where it lives. *)
Definition assign (l : list DockItem) (r : ItemRef) (it : DockItem) : list DockItem :=
  match r with
  | TopLevel i => <[i:=it]> l
  | InFolder i j =>
      match l !! i with
      | Some f =>
          match children f with
          | Some cs => <[i:=set_children (Some (<[j:=it]> cs)) f]> l
          | None => l
          end
      | None => l
      end
  end.

(** ** The host *)

Inductive Uri :=
  | UriFile (fsPath : string)
  | UriParse (value : string).

(** An argument of a command.  A dock item is passed as the object itself,
    not as a copy of it: what the command holds is a reference ([ItemRef]). *)
Inductive Argument :=
  | ArgItem (item : ItemRef)
  | ArgUri (u : Uri).

(** [vscode.Command]. *)
Record Command := mkCommand {
  cmd_command : string;
  cmd_title : string;
  cmd_arguments : option (list Argument)
}.

(** [StatusBarItem.command] is a command object or a command identifier. *)
Inductive ItemCommand :=
  | CommandObject (c : Command)
  | CommandId (c : string).

Record StatusBarItem := mkStatusBarItem {
  sb_priority : Z;
  sb_text : string;
  sb_tooltip : string;
  sb_command : option ItemCommand
}.

Inductive Message :=
  | Information (text : string)
  | Error (text : string).

(** The settings under [vscode-dock]; a key that is not set is [None] and
    [get] falls back to the default that the caller passes. *)
Record Configuration := mkConfiguration {
  cfg_items : option (list DockItem);
  cfg_maxItems : option Z;
  cfg_showIcons : option bool;
  cfg_showTitles : option bool
}.

(** What the provider cannot compute: the clock, the random source and
    Node's [path] module.  [Date_now k] is the reading of the [k]-th call of
    [Date.now()], [Math_random k] the decimal text that a template literal
    prints for the [k]-th draw of [Math.random()]. *)
Record Host := mkHost {
  Date_now : nat → N;
  Math_random : nat → string;
  path_basename : string → string;
  path_extname : string → string
}.

(** The provider object, with the host state it reads and writes. *)
Record Provider := mkProvider {
  statusBarItems : list StatusBarItem;
  dockItems : list DockItem;
  configuration : Configuration;
  messages : list Message;
  clock_calls : nat;
  random_calls : nat
}.

Definition set_statusBarItems (sb : list StatusBarItem) (p : Provider) : Provider :=
  mkProvider sb (dockItems p) (configuration p) (messages p)
             (clock_calls p) (random_calls p).
Definition set_dockItems (l : list DockItem) (p : Provider) : Provider :=
  mkProvider (statusBarItems p) l (configuration p) (messages p)
             (clock_calls p) (random_calls p).
Definition set_configuration (c : Configuration) (p : Provider) : Provider :=
  mkProvider (statusBarItems p) (dockItems p) c (messages p)
             (clock_calls p) (random_calls p).
Definition show (m : Message) (p : Provider) : Provider :=
  mkProvider (statusBarItems p) (dockItems p) (configuration p)
             (messages p ++ [m]) (clock_calls p) (random_calls p).
Definition tick (p : Provider) : Provider :=
  mkProvider (statusBarItems p) (dockItems p) (configuration p) (messages p)
             (S (clock_calls p)) (random_calls p).

(** ** Lookup tables *)

Definition getDefaultItems : list DockItem :=
  [ mkDockItem "terminal" app "Terminal" None None None
      (Some "$(terminal)") None None (Some "workbench.action.terminal.new");
    mkDockItem "explorer" app "Explorer" None None None
      (Some "$(files)") None None (Some "workbench.view.explorer");
    mkDockItem "git" app "Git" None None None
      (Some "$(git-branch)") None None (Some "workbench.view.scm");
    mkDockItem "extensions" app "Extensions" None None None
      (Some "$(extensions)") None None (Some "workbench.view.extensions") ].

Definition colorMap : gmap string string :=
  list_to_map
    [ ("#007ACC", "🔵"); ("#28A745", "🟢"); ("#DC3545", "🟥");
      ("#FD7E14", "🟠"); ("#6F42C1", "🟣"); ("#E83E8C", "🟪");
      ("#FFC107", "🟡"); ("#20C997", "💎") ].

Definition getColorIcon (color : string) : JsValue :=
  js_or (js_get colorMap color) "⚪".

Definition colorNames : gmap string string :=
  list_to_map
    [ ("#007ACC", "Blue"); ("#28A745", "Green"); ("#DC3545", "Red");
      ("#FD7E14", "Orange"); ("#6F42C1", "Purple"); ("#E83E8C", "Pink");
      ("#FFC107", "Yellow"); ("#20C997", "Teal") ].

Definition getColorName (color : string) : JsValue :=
  js_or (js_get colorNames color) "Custom".

(** The eight color codes that the color pickers offer. *)
Definition knownColors : list string :=
  [ "#007ACC"; "#28A745"; "#DC3545"; "#FD7E14"; "#6F42C1"; "#E83E8C";
    "#FFC107"; "#20C997" ].

Definition iconMap : gmap string string :=
  list_to_map
    [ (".js", "$(symbol-method)"); (".ts", "$(symbol-method)");
      (".html", "$(globe)"); (".css", "$(symbol-color)");
      (".json", "$(symbol-object)"); (".md", "$(book)");
      (".txt", "$(file-text)"); (".pdf", "$(file-pdf)");
      (".png", "$(file-media)"); (".jpg", "$(file-media)");
      (".gif", "$(file-media)"); (".svg", "$(file-media)") ].

(** [String.prototype.toLowerCase] on the ASCII letters. *)
Definition lower_ascii (c : Ascii.ascii) : Ascii.ascii :=
  let n := Ascii.nat_of_ascii c in
  if (65 <=? n)%nat && (n <=? 90)%nat then Ascii.ascii_of_nat (n + 32) else c.

Fixpoint toLowerCase (s : string) : string :=
  match s with
  | EmptyString => EmptyString
  | String c s' => String (lower_ascii c) (toLowerCase s')
  end.

Section WithHost.

Variable host : Host.

(** [path.extname] returns the empty string or a string that starts with a
    dot, so this lookup never reaches an inherited property. *)
Definition getFileIcon (fileName : string) : string :=
  let ext := toLowerCase (path_extname host fileName) in
  or_else (iconMap !! ext) "$(file)".

(** ** Projection *)

Definition getCommandForItem (item : DockItem) : option Command :=
  match type item with
  | app =>
      match command item with
      | Some c =>
          if bool_decide (c = "") then None
          else Some (mkCommand c (name item) None)
      | None => None
      end
  | file =>
      match path item with
      | Some p =>
          if bool_decide (p = "") then None
          else Some (mkCommand "vscode.open" (name item)
                               (Some [ArgUri (UriFile p)]))
      | None => None
      end
  | folder =>
      match path item with
      | Some p =>
          if bool_decide (p = "") then None
          else Some (mkCommand "vscode.openFolder" (name item)
                               (Some [ArgUri (UriFile p)]))
      | None => None
      end
  | link =>
      match url item with
      | Some u =>
          if bool_decide (u = "") then None
          else Some (mkCommand "vscode.open" (name item)
                               (Some [ArgUri (UriParse u)]))
      | None => None
      end
  | folder_group => None
  end.

Definition get_maxItems (c : Configuration) : Z := default 10%Z (cfg_maxItems c).
Definition get_showIcons (c : Configuration) : bool := default true (cfg_showIcons c).
Definition get_showTitles (c : Configuration) : bool := default true (cfg_showTitles c).

(** The body of the [forEach] callback of [createDockItems].  The command
    of a folder group carries the object [item] itself, which is the object
    at [index] of the list: every method that changes the positions of the
    list calls [createDockItems] afterwards, which makes the entries
    anew. *)
Definition renderItem (showIcons showTitles : bool) (index : nat)
    (item : DockItem) : StatusBarItem :=
  let displayText :=
    if showIcons && truthy (icon item) then
      (if truthy (color item)
       then js_to_string (getColorIcon (default "" (color item))) +:+ " "
       else "")
      +:+ default "" (icon item)
      +:+ (if showTitles && negb (bool_decide (name item = ""))
              && (js_length (name item) <=? 20)%nat
           then " " +:+ name item else "")
    else name item in
  let tooltip :=
    or_else (title item) (name item)
    +:+ (if truthy (color item)
         then " (" +:+ js_to_string (getColorName (default "" (color item)))
              +:+ ")"
         else "") in
  let cmd :=
    if bool_decide (type item = folder_group) && bool_decide (is_Some (children item))
    then Some (CommandObject
                 (mkCommand "vscode-dock.showFolderMenu" (name item)
                            (Some [ArgItem (TopLevel index)])))
    else CommandObject <$> getCommandForItem item in
  mkStatusBarItem (1000 - Z.of_nat index) displayText tooltip cmd.

(** The trailing button that adds a new item. *)
Definition addButton : StatusBarItem :=
  mkStatusBarItem 500 "$(plus)" "Add item to dock"
                  (Some (CommandId "vscode-dock.addItem")).

Definition createDockItems (p : Provider) : Provider :=
  let cfg := configuration p in
  set_statusBarItems
    (imap (renderItem (get_showIcons cfg) (get_showTitles cfg))
          (slice0 (dockItems p) (get_maxItems cfg))
     ++ [addButton]) p.

Definition saveConfiguration (p : Provider) : Provider :=
  let c := configuration p in
  set_configuration
    (mkConfiguration (Some (dockItems p)) (cfg_maxItems c) (cfg_showIcons c)
                     (cfg_showTitles c)) p.

Definition loadConfiguration (p : Provider) : Provider :=
  let p1 := set_dockItems (default [] (cfg_items (configuration p))) p in
  if bool_decide (length (dockItems p1) = 0)
  then saveConfiguration (set_dockItems getDefaultItems p1)
  else p1.

Definition initialize (p : Provider) : Provider :=
  createDockItems (loadConfiguration p).

(** ** Adding items *)

Definition push (newItem : DockItem) (p : Provider) : Provider :=
  set_dockItems (dockItems p ++ [newItem]) p.

(** [`prefix-${Date.now()}`]; the call advances the clock's call count. *)
Definition timestamp_id (prefix : string) (p : Provider) : string :=
  prefix +:+ "-" +:+ pretty (Date_now host (clock_calls p)).

Definition createAppItem (name title command icon : option string)
    (p : Provider) : option DockItem * Provider :=
  match name with
  | Some name =>
      if bool_decide (name = "") then (None, p)
      else (Some (mkDockItem (timestamp_id "app" p) app name
                             (Some (or_else title name)) None None icon None
                             None command),
            tick p)
  | None => (None, p)
  end.

(** [fileUri] holds the [fsPath] of every selected entry. *)
Definition createFileItem (fileUri : option (list string))
    (title : option string) (p : Provider) : option DockItem * Provider :=
  match fileUri with
  | Some (filePath :: _) =>
      let fileName := path_basename host filePath in
      (Some (mkDockItem (timestamp_id "file" p) file fileName
                        (Some (or_else title fileName)) (Some filePath) None
                        (Some (getFileIcon fileName)) None None None),
       tick p)
  | _ => (None, p)
  end.

Definition createFolderItem (folderUri : option (list string))
    (title : option string) (p : Provider) : option DockItem * Provider :=
  match folderUri with
  | Some (folderPath :: _) =>
      let folderName := path_basename host folderPath in
      (Some (mkDockItem (timestamp_id "folder" p) folder folderName
                        (Some (or_else title folderName)) (Some folderPath)
                        None (Some "$(folder)") None None None),
       tick p)
  | _ => (None, p)
  end.

Definition createLinkItem (url name title : option string)
    (p : Provider) : option DockItem * Provider :=
  match url, name with
  | Some url, Some name =>
      if bool_decide (url = "") || bool_decide (name = "") then (None, p)
      else (Some (mkDockItem (timestamp_id "link" p) link name
                             (Some (or_else title name)) None (Some url)
                             (Some "$(globe)") None None None),
            tick p)
  | _, _ => (None, p)
  end.

(** The tail shared by the four [add...Item] methods and
    [showAddFolderDialog]: push, save, render. *)
Definition commit (r : option DockItem * Provider) : Provider :=
  match r.1 with
  | Some newItem => createDockItems (saveConfiguration (push newItem r.2))
  | None => r.2
  end.

(** [addAppItem] builds the same object as [createAppItem] and then pushes
    it; likewise for the other three variants. *)
Definition addAppItem (name title command icon : option string)
    (p : Provider) : Provider :=
  commit (createAppItem name title command icon p).

Definition addFileItem (fileUri : option (list string)) (title : option string)
    (p : Provider) : Provider :=
  commit (createFileItem fileUri title p).

Definition addFolderItem (folderUri : option (list string))
    (title : option string) (p : Provider) : Provider :=
  commit (createFolderItem folderUri title p).

Definition addLinkItem (url name title : option string) (p : Provider) : Provider :=
  commit (createLinkItem url name title p).

(** The entries of the color pickers, with the [value] each carries. *)
Inductive ColorPick :=
  | PickDefault | PickBlue | PickGreen | PickRed | PickOrange | PickPurple
  | PickPink | PickYellow | PickTeal.

Definition pick_value (c : ColorPick) : string :=
  match c with
  | PickDefault => ""
  | PickBlue => "#007ACC"
  | PickGreen => "#28A745"
  | PickRed => "#DC3545"
  | PickOrange => "#FD7E14"
  | PickPurple => "#6F42C1"
  | PickPink => "#E83E8C"
  | PickYellow => "#FFC107"
  | PickTeal => "#20C997"
  end.

(** [color?.value || undefined]. *)
Definition picked_color (color : option ColorPick) : option string :=
  or_undefined (pick_value <$> color).

Definition createFolderGroup (name title : option string)
    (color : option ColorPick) (p : Provider) : option DockItem * Provider :=
  match name with
  | Some name =>
      if bool_decide (name = "") then (None, p)
      else (Some (mkDockItem (timestamp_id "folder-group" p) folder_group name
                             (Some (or_else title name)) None None
                             (Some "$(folder-opened)") (picked_color color)
                             (Some []) None),
            tick p)
  | None => (None, p)
  end.

Definition showAddFolderDialog (name title : option string)
    (color : option ColorPick) (p : Provider) : Provider :=
  commit (createFolderGroup name title color p).

(** Everything the user may be asked while one item is created. *)
Record Answers := mkAnswers {
  ans_name : option string;
  ans_title : option string;
  ans_command : option string;
  ans_icon : option string;
  ans_url : option string;
  ans_uris : option (list string);
  ans_color : option ColorPick
}.

(** The entries of the quick pick of [showAddItemDialog]. *)
Inductive AddChoice :=
  | ChooseApp | ChooseFile | ChooseFolder | ChooseFolderGroup | ChooseLink.

Definition add_label (c : AddChoice) : string :=
  match c with
  | ChooseApp => "$(terminal) App/Command"
  | ChooseFile => "$(file) File"
  | ChooseFolder => "$(folder) Folder"
  | ChooseFolderGroup => "$(folder-opened) Folder Group"
  | ChooseLink => "$(globe) Web Link"
  end.

Definition showAddItemDialog (itemType : option AddChoice) (a : Answers)
    (p : Provider) : Provider :=
  match itemType with
  | None => p
  | Some c =>
      let label := add_label c in
      if includes label "App/Command" then
        addAppItem (ans_name a) (ans_title a) (ans_command a) (ans_icon a) p
      else if includes label "File" then
        addFileItem (ans_uris a) (ans_title a) p
      else if includes label "Folder" && negb (includes label "Group") then
        addFolderItem (ans_uris a) (ans_title a) p
      else if includes label "Folder Group" then
        showAddFolderDialog (ans_name a) (ans_title a) (ans_color a) p
      else if includes label "Web Link" then
        addLinkItem (ans_url a) (ans_name a) (ans_title a) p
      else p
  end.

(** The entries of the quick pick of [addItemToFolder]. *)
Inductive FolderAddChoice :=
  | IntoApp | IntoFile | IntoFolder | IntoLink.

Definition folder_add_label (c : FolderAddChoice) : string :=
  match c with
  | IntoApp => "$(terminal) App/Command"
  | IntoFile => "$(file) File"
  | IntoFolder => "$(folder) Folder"
  | IntoLink => "$(globe) Web Link"
  end.

(** The item that [addItemToFolder] asks the user to describe. *)
Definition createForFolder (itemType : FolderAddChoice) (a : Answers)
    (p : Provider) : option DockItem * Provider :=
  let label := folder_add_label itemType in
  if includes label "App/Command" then
    createAppItem (ans_name a) (ans_title a) (ans_command a) (ans_icon a) p
  else if includes label "File" then
    createFileItem (ans_uris a) (ans_title a) p
  else if includes label "Folder" then
    createFolderItem (ans_uris a) (ans_title a) p
  else if includes label "Web Link" then
    createLinkItem (ans_url a) (ans_name a) (ans_title a) p
  else (None, p).

(** What [addItemToFolder] does to the object it was given. *)
Definition appendChild (newItem : DockItem) (folderItem : DockItem) : DockItem :=
  set_children (Some (default [] (children folderItem) ++ [newItem])) folderItem.

(** [addItemToFolder(folderItem)].  The status bar is not rebuilt here. *)
Definition addItemToFolder (folderItem : ItemRef)
    (itemType : option FolderAddChoice) (a : Answers) (p : Provider) : Provider :=
  match deref (dockItems p) folderItem, itemType with
  | Some target, Some c =>
      match createForFolder c a p with
      | (Some newItem, p1) =>
          show (Information ("Added " +:+ quoted (name newItem) +:+ " to "
                             +:+ quoted (name target) +:+ " folder."))
            (saveConfiguration
               (set_dockItems
                  (assign (dockItems p1) folderItem (appendChild newItem target))
                  p1))
      | (None, p1) => p1
      end
  | _, _ => p
  end.

(** ** Importing bookmarks *)

(** A node of Chrome's [Bookmarks] file, with the properties that the
    import reads.  [node_type] is [None] when the node has no [type]. *)
Inductive BookmarkNode := mkNode {
  node_type : option string;
  node_name : string;
  node_url : option string;
  node_children : option (list BookmarkNode)
}.

(** The parsed file: [bd_roots] is [Object.values(bookmarksData.roots)],
    [None] when the file has no [roots]. *)
Record BookmarksData := mkBookmarksData {
  bd_roots : option (list BookmarkNode)
}.

(** The local array [items] of [parseChromeBookmarks] together with the
    number of clock readings and random draws made so far. *)
Record ParseState := mkParseState {
  ps_items : list DockItem;
  ps_clock : nat;
  ps_random : nat
}.

Definition importedItem (node : BookmarkNode) (st : ParseState) : DockItem :=
  mkDockItem ("chrome-" +:+ pretty (Date_now host (ps_clock st)) +:+ "-"
              +:+ Math_random host (ps_random st))
             link (node_name node) None None (node_url node)
             (Some "$(globe)") None None None.

Fixpoint parseBookmarkNode (node : BookmarkNode) (st : ParseState) : ParseState :=
  if bool_decide (node_type node = Some "url") then
    mkParseState (ps_items st ++ [importedItem node st])
                 (S (ps_clock st)) (S (ps_random st))
  else if bool_decide (node_type node = Some "folder") then
    match node_children node with
    | Some cs =>
        (fix each (cs : list BookmarkNode) (st : ParseState) : ParseState :=
           match cs with
           | [] => st
           | child :: cs' => each cs' (parseBookmarkNode child st)
           end) cs st
    | None => st
    end
  else st.

(** [nodes.forEach(child => parseBookmarkNode(child))]. *)
Definition parseEach (cs : list BookmarkNode) (st : ParseState) : ParseState :=
  foldl (λ st child, parseBookmarkNode child st) st cs.

Definition parseRoot (st : ParseState) (root : BookmarkNode) : ParseState :=
  match node_children root with
  | Some cs => parseEach cs st
  | None => st
  end.

Definition parseChromeBookmarks (bookmarksData : BookmarksData)
    (p : Provider) : ParseState :=
  let st := mkParseState [] (clock_calls p) (random_calls p) in
  match bd_roots bookmarksData with
  | Some roots => foldl parseRoot st roots
  | None => st
  end.

(** What reading the bookmarks file gives: no file at the platform's path,
    an exception of [readFileSync] or [JSON.parse], or the parsed data. *)
Inductive BookmarksFile :=
  | NotFound
  | Throws (error : string)
  | Parsed (data : BookmarksData).

Definition importChromeBookmarks (f : BookmarksFile) (p : Provider) : Provider :=
  match f with
  | NotFound =>
      show (Error "Chrome bookmarks file not found. Please make sure Chrome is installed.") p
  | Throws error =>
      show (Error ("Failed to import Chrome bookmarks: " +:+ error)) p
  | Parsed bookmarksData =>
      let st := parseChromeBookmarks bookmarksData p in
      let importedItems := ps_items st in
      if bool_decide (0 < length importedItems) then
        let p1 := mkProvider (statusBarItems p)
                             (dockItems p ++ importedItems) (configuration p)
                             (messages p) (ps_clock st) (ps_random st) in
        show (Information ("Imported " +:+ pretty (length importedItems)
                           +:+ " bookmarks from Chrome."))
             (createDockItems (saveConfiguration p1))
      else
        show (Information "No bookmarks found to import.")
             (mkProvider (statusBarItems p) (dockItems p) (configuration p)
                         (messages p) (ps_clock st) (ps_random st))
  end.

(** ** Reset *)

(** [result] is the button of the warning that the user pressed. *)
Definition clearAllItems (result : option string) (p : Provider) : Provider :=
  if bool_decide (result = Some "Yes") then
    show (Information "All custom dock items cleared. Default VSCode items restored.")
         (createDockItems (saveConfiguration (set_dockItems getDefaultItems p)))
  else p.

(** ** Editing *)

(** The answers to the prompts of [editItem]; a prompt that is not shown
    for the item's type has its answer ignored. *)
Record EditAnswers := mkEditAnswers {
  newName : option string;
  newTitle : option string;
  newCommand : option string;
  newIcon : option string;
  editColor : option ColorPick;
  newUrl : option string
}.

Definition when_type (t : ItemType) (f : DockItem → DockItem) (item : DockItem) : DockItem :=
  if bool_decide (type item = t) then f item else item.

(** The state of the object after [editItem], [None] when the method
    returned before touching it. *)
Definition editFields (a : EditAnswers) (item : DockItem) : option DockItem :=
  match newName a, newTitle a with
  | Some n, Some t =>
      let item := set_title (Some t) (set_name n item) in
      let item :=
        when_type app (λ item,
          let item := match newCommand a with
                      | Some c => set_command (Some c) item
                      | None => item
                      end in
          match newIcon a with
          | Some i => set_icon (Some i) item
          | None => item
          end) item in
      let item :=
        when_type folder_group (λ item,
          match editColor a with
          | Some c => set_color (or_undefined (Some (pick_value c))) item
          | None => item
          end) item in
      let item :=
        when_type link (λ item,
          match newUrl a with
          | Some u => set_url (Some u) item
          | None => item
          end) item in
      Some item
  | _, _ => None
  end.

Definition editItem (item : ItemRef) (a : EditAnswers) (p : Provider) : Provider :=
  match deref (dockItems p) item with
  | Some it =>
      match editFields a it with
      | Some it' =>
          show (Information ("Updated " +:+ quoted (name it') +:+ " successfully."))
               (createDockItems
                  (saveConfiguration
                     (set_dockItems (assign (dockItems p) item it') p)))
      | None => p
      end
  | None => p
  end.

(** ** Reordering *)

Definition has_id (key : string) (i : DockItem) : bool := bool_decide (id i = key).

Definition direction_word (direction : Z) : string :=
  if (0 <? direction)%Z then "down" else "up".

(** [moveItem(item, direction)] reads only [item.id] and [item.name]. *)
Definition moveItem (item : DockItem) (direction : Z) (p : Provider) : Provider :=
  match findIndex (has_id (id item)) (dockItems p) with
  | None => p
  | Some index =>
      let newIndex := (Z.of_nat index + direction)%Z in
      if (newIndex <? 0)%Z || (Z.of_nat (length (dockItems p)) <=? newIndex)%Z then
        show (Information "Cannot move item in that direction.") p
      else
        show (Information ("Moved " +:+ quoted (name item) +:+ " "
                           +:+ direction_word direction +:+ " successfully."))
             (createDockItems
                (saveConfiguration
                   (set_dockItems (swap (dockItems p) index (Z.to_nat newIndex)) p)))
  end.

(** What [moveItemInFolder] does to [folder.children], with the message it
    shows; [None] when it returns without doing anything. *)
Definition moveChild (item : DockItem) (direction : Z) (folderName : string)
    (cs : list DockItem) : option (list DockItem * Message * bool) :=
  match findIndex (has_id (id item)) cs with
  | None => None
  | Some index =>
      let newIndex := (Z.of_nat index + direction)%Z in
      if (newIndex <? 0)%Z || (Z.of_nat (length cs) <=? newIndex)%Z then
        Some (cs, Information "Cannot move item in that direction within the folder.", false)
      else
        Some (swap cs index (Z.to_nat newIndex),
              Information ("Moved " +:+ quoted (name item) +:+ " "
                           +:+ direction_word direction +:+ " in "
                           +:+ quoted folderName +:+ " folder."),
              true)
  end.

Definition moveItemInFolder (item : DockItem) (folder : ItemRef) (direction : Z)
    (p : Provider) : Provider :=
  match deref (dockItems p) folder with
  | Some f =>
      match children f with
      | Some cs =>
          match moveChild item direction (name f) cs with
          | Some (cs', m, true) =>
              show m
                (createDockItems
                   (saveConfiguration
                      (set_dockItems
                         (assign (dockItems p) folder (set_children (Some cs') f))
                         p)))
          | Some (_, m, false) => show m p
          | None => p
          end
      | None => p
      end
  | None => p
  end.

End WithHost.

(** ** Removing *)

(** The three methods that remove a top-level object differ in the message
    only: [findIndex] by id, [splice(index, 1)], save, render. *)
Definition removeTopLevel (message : string) (item : DockItem)
    (result : option string) (p : Provider) : Provider :=
  if bool_decide (result = Some "Yes") then
    match findIndex (has_id (id item)) (dockItems p) with
    | Some index =>
        show (Information message)
             (createDockItems
                (saveConfiguration
                   (set_dockItems (delete index (dockItems p)) p)))
    | None => p
    end
  else p.

Definition deleteItem (item : DockItem) (result : option string)
    (p : Provider) : Provider :=
  removeTopLevel ("Deleted " +:+ quoted (name item) +:+ " successfully.")
                 item result p.

Definition removeItem (item : DockItem) (result : option string)
    (p : Provider) : Provider :=
  removeTopLevel ("Removed " +:+ quoted (name item) +:+ " from dock.")
                 item result p.

Definition removeFolderGroup (folderItem : DockItem) (result : option string)
    (p : Provider) : Provider :=
  removeTopLevel ("Deleted " +:+ quoted (name folderItem)
                  +:+ " folder and all its contents.")
                 folderItem result p.

Definition removeItemFromFolder (item : DockItem) (folder : ItemRef)
    (result : option string) (p : Provider) : Provider :=
  if bool_decide (result = Some "Yes") then
    match deref (dockItems p) folder with
    | Some f =>
        match children f with
        | Some cs =>
            match findIndex (has_id (id item)) cs with
            | Some index =>
                show (Information ("Removed " +:+ quoted (name item)
                                   +:+ " from " +:+ quoted (name f)
                                   +:+ " folder."))
                     (createDockItems
                        (saveConfiguration
                           (set_dockItems
                              (assign (dockItems p) folder
                                      (set_children (Some (delete index cs)) f))
                              p)))
            | None => p
            end
        | None => p
        end
    | None => p
    end
  else p.

(** ** Color of a folder group *)

Global Instance ColorPick_eq_dec : EqDecision ColorPick.
Proof. solve_decision. Defined.

(** The label of an entry of the color pickers. *)
Definition pick_label (c : ColorPick) : string :=
  match c with
  | PickDefault => "$(circle-filled) Default"
  | PickBlue => "$(circle-filled) Blue"
  | PickGreen => "$(circle-filled) Green"
  | PickRed => "$(circle-filled) Red"
  | PickOrange => "$(circle-filled) Orange"
  | PickPurple => "$(circle-filled) Purple"
  | PickPink => "$(circle-filled) Pink"
  | PickYellow => "$(circle-filled) Yellow"
  | PickTeal => "$(circle-filled) Teal"
  end.

Definition changeFolderColor (folderItem : ItemRef) (color : option ColorPick)
    (p : Provider) : Provider :=
  match deref (dockItems p) folderItem, color with
  | Some f, Some c =>
      show (Information ("Changed " +:+ quoted (name f) +:+ " folder color."))
           (createDockItems
              (saveConfiguration
                 (set_dockItems
                    (assign (dockItems p) folderItem
                            (set_color (or_undefined (Some (pick_value c))) f))
                    p)))
  | _, _ => p
  end.

(** ** Menus *)

(** [a || b] for two strings that may be [undefined]. *)
Definition or_option (a b : option string) : option string :=
  if truthy a then a else b.

(** The element of a quick pick that the user chose: [chosen] is its
    position in the list shown, [None] when the pick was dismissed. *)
Definition picked {A} (shown : list A) (chosen : option nat) : option A :=
  match chosen with
  | Some k => shown !! k
  | None => None
  end.

(** [this.getDefaultItems().map(item => item.id)]. *)
Definition defaultItemIds : list string := id <$> getDefaultItems.

(** Every answer that the user gives, and the bookmarks file that is read,
    while one command runs.  No chain of dialogs asks twice for the same
    field. *)
Record Replies := mkReplies {
  re_config : option nat;
  re_itemType : option AddChoice;
  re_answers : Answers;
  re_file : BookmarksFile;
  re_result : option string;
  re_selected : option nat;
  re_action : option nat;
  re_edit : EditAnswers;
  re_color : option ColorPick;
  re_folderType : option FolderAddChoice;
  re_menu : option nat
}.

Section Dialogs.

Variable host : Host.

Definition getItemIcon (item : DockItem) : string :=
  if truthy (icon item) then default "" (icon item)
  else match type item with
       | app => "$(terminal)"
       | file => getFileIcon host (name item)
       | folder => "$(folder)"
       | link => "$(globe)"
       | folder_group => "$(folder-opened)"
       end.

(** The reference to the [j]-th child of the object behind [folder]. *)
Definition child_ref (folder : ItemRef) (j : nat) : option ItemRef :=
  match folder with
  | TopLevel i => Some (InFolder i j)
  | InFolder _ _ => None
  end.

Definition childActions : list string :=
  [ "$(edit) Edit"; "$(trash) Remove from Folder";
    "$(arrow-up) Move Up in Folder"; "$(arrow-down) Move Down in Folder" ].

(** The tail shared by [showFolderItemsDialog] and the child branch of
    [showManageItemsDialog]: the action picked for a child of a folder. *)
Definition childAction (selected folder : ItemRef) (r : Replies)
    (p : Provider) : Provider :=
  match deref (dockItems p) selected, picked childActions (re_action r) with
  | Some item, Some label =>
      if includes label "Edit" then editItem selected (re_edit r) p
      else if includes label "Remove from Folder" then
        removeItemFromFolder item folder (re_result r) p
      else if includes label "Move Up in Folder" then
        moveItemInFolder item folder (-1) p
      else if includes label "Move Down in Folder" then
        moveItemInFolder item folder 1 p
      else p
  | _, _ => p
  end.

(** [showFolderItemsDialog(folderItem)]; the entries of its quick pick are
    the children, in order. *)
Definition showFolderItemsDialog (folderItem : ItemRef) (r : Replies)
    (p : Provider) : Provider :=
  match deref (dockItems p) folderItem with
  | Some f =>
      match children f with
      | Some (c :: cs) =>
          match re_selected r with
          | Some j =>
              if bool_decide (j < length (c :: cs)) then
                match child_ref folderItem j with
                | Some selected => childAction selected folderItem r p
                | None => p
                end
              else p
          | None => p
          end
      | _ =>
          show (Information (quoted (name f)
                             +:+ " folder is empty. Add some items first.")) p
      end
  | None => p
  end.

(** An entry of the quick pick of [showManageItemsDialog]. *)
Record ManageEntry := mkManageEntry {
  me_label : string;
  me_description : string;
  me_detail : option string;
  me_item : ItemRef;
  me_isDefault : bool;
  me_isFolderGroup : bool;
  me_parentFolder : option ItemRef
}.

Definition manageEntriesOf (i : nat) (item : DockItem) : list ManageEntry :=
  let isDefault := bool_decide (id item ∈ defaultItemIds) in
  if bool_decide (type item = folder_group) then
    mkManageEntry
      (getItemIcon item +:+ " " +:+ name item)
      (type_string (type item) +:+ " ("
       +:+ pretty (length (default [] (children item))) +:+ " items)")
      (Some (or_else (title item) "Folder group"))
      (TopLevel i) isDefault true None
    :: imap (λ j child,
               mkManageEntry
                 ("  └─ " +:+ getItemIcon child +:+ " " +:+ name child)
                 (type_string (type child) +:+ " (in " +:+ name item +:+ ")")
                 (or_option (title child)
                    (or_option (path child)
                       (or_option (url child) (command child))))
                 (InFolder i j) false false (Some (TopLevel i)))
            (default [] (children item))
  else
    [ mkManageEntry
        (getItemIcon item +:+ " " +:+ name item)
        (if isDefault then type_string (type item) +:+ " (Default)"
         else type_string (type item))
        (or_option (title item)
           (or_option (path item) (or_option (url item) (command item))))
        (TopLevel i) isDefault false None ].

Definition manageEntries (l : list DockItem) : list ManageEntry :=
  concat (imap manageEntriesOf l).

Definition groupActions : list string :=
  [ "$(edit) Edit Folder"; "$(plus) Add Item to Folder";
    "$(paintcan) Change Color"; "$(trash) Delete Folder";
    "$(arrow-up) Move Up"; "$(arrow-down) Move Down" ].

Definition defaultActions : list string :=
  [ "$(arrow-up) Move Up"; "$(arrow-down) Move Down" ].

Definition itemActions : list string :=
  [ "$(edit) Edit"; "$(trash) Delete"; "$(arrow-up) Move Up";
    "$(arrow-down) Move Down" ].

Definition showManageItemsDialog (r : Replies) (p : Provider) : Provider :=
  if bool_decide (length (dockItems p) = 0) then
    show (Information "No dock items to manage. Add some items first.") p
  else
    match picked (manageEntries (dockItems p)) (re_selected r) with
    | None => p
    | Some selected =>
        match deref (dockItems p) (me_item selected) with
        | None => p
        | Some item =>
            if me_isFolderGroup selected then
              match picked groupActions (re_action r) with
              | None => p
              | Some label =>
                  if includes label "Edit Folder" then
                    editItem (me_item selected) (re_edit r) p
                  else if includes label "Add Item to Folder" then
                    addItemToFolder host (me_item selected) (re_folderType r)
                                    (re_answers r) p
                  else if includes label "Change Color" then
                    changeFolderColor (me_item selected) (re_color r) p
                  else if includes label "Delete Folder" then
                    removeFolderGroup item (re_result r) p
                  else if includes label "Move Up" then moveItem item (-1) p
                  else if includes label "Move Down" then moveItem item 1 p
                  else p
              end
            else
              match me_parentFolder selected with
              | Some parentFolder =>
                  childAction (me_item selected) parentFolder r p
              | None =>
                  if me_isDefault selected then
                    match picked defaultActions (re_action r) with
                    | None => p
                    | Some label =>
                        if includes label "Move Up" then moveItem item (-1) p
                        else if includes label "Move Down" then moveItem item 1 p
                        else p
                    end
                  else
                    match picked itemActions (re_action r) with
                    | None => p
                    | Some label =>
                        if includes label "Edit" then
                          editItem (me_item selected) (re_edit r) p
                        else if includes label "Delete" then
                          deleteItem item (re_result r) p
                        else if includes label "Move Up" then moveItem item (-1) p
                        else if includes label "Move Down" then moveItem item 1 p
                        else p
                    end
              end
        end
    end.



(** An entry of the quick pick that [showFolderMenu] shows for a folder with
    children: a child, or one of the five fixed entries. *)
Record FolderMenuEntry := mkFolderMenuEntry {
  fm_label : string;
  fm_description : string;
  fm_detail : option string;
  fm_item : option DockItem;
  fm_isAddAction : bool;
  fm_isRemoveAction : bool;
  fm_isColorAction : bool;
  fm_isConfigureAction : bool;
  fm_isSeparator : bool
}.

Definition folderMenuEntries (cs : list DockItem) : list FolderMenuEntry :=
  ((λ child,
      mkFolderMenuEntry (getItemIcon child +:+ " " +:+ name child)
                        (type_string (type child))
                        (or_option (title child)
                                   (or_option (path child) (url child)))
                        (Some child) false false false false false) <$> cs)
  ++ [ mkFolderMenuEntry "$(plus) Add Item to Folder"
                         "Add a new item to this folder" None None
                         true false false false false;
       mkFolderMenuEntry "$(horizontal-rule) ────────────────────────"
                         "" None None false false false false true;
       mkFolderMenuEntry "$(gear) Configure Items"
                         "Manage folder items and settings" None None
                         false false false true false;
       mkFolderMenuEntry "$(paintcan) Change Color"
                         "Change the color of this folder" None None
                         false false true false false;
       mkFolderMenuEntry "$(trash) Remove Folder"
                         "Delete this folder and all its contents" None None
                         false true false false false ].

Definition emptyFolderActions : list string :=
  [ "$(close) Cancel"; "$(gear) Configure Items"; "$(paintcan) Change Color";
    "$(plus) Add Item to Folder"; "$(trash) Remove Folder" ].

(** [showFolderMenu(folderItem)].  The second component is the command that
    the method passes to [executeCommand], if any.  The list of children
    that the method creates for an object without one is not saved. *)
Definition showFolderMenu (folderItem : ItemRef) (r : Replies)
    (p : Provider) : Provider * option Command :=
  match deref (dockItems p) folderItem with
  | None => (p, None)
  | Some f0 =>
      let f := match children f0 with
               | Some _ => f0
               | None => set_children (Some []) f0
               end in
      let p := match children f0 with
               | Some _ => p
               | None => set_dockItems (assign (dockItems p) folderItem f) p
               end in
      let cs := default [] (children f) in
      if bool_decide (length cs = 0) then
        (match picked emptyFolderActions (re_menu r) with
         | Some label =>
             if includes label "Add Item to Folder" then
               addItemToFolder host folderItem (re_folderType r) (re_answers r) p
             else if includes label "Configure Items" then
               showFolderItemsDialog folderItem r p
             else if includes label "Change Color" then
               changeFolderColor folderItem (re_color r) p
             else if includes label "Remove Folder" then
               removeFolderGroup f (re_result r) p
             else p
         | None => p
         end, None)
      else
        match picked (folderMenuEntries cs) (re_menu r) with
        | None => (p, None)
        | Some selected =>
            if fm_isSeparator selected then (p, None)
            else if fm_isAddAction selected then
              (addItemToFolder host folderItem (re_folderType r) (re_answers r) p,
               None)
            else if fm_isConfigureAction selected then
              (showFolderItemsDialog folderItem r p, None)
            else if fm_isColorAction selected then
              (changeFolderColor folderItem (re_color r) p, None)
            else if fm_isRemoveAction selected then
              (removeFolderGroup f (re_result r) p, None)
            else
              match fm_item selected with
              | Some item => (p, getCommandForItem item)
              | None => (p, None)
              end
        end
  end.

Definition configurationActions : list string :=
  [ "Add Item"; "Manage Items"; "Import Chrome Bookmarks"; "Reset to Defaults" ].

Definition showConfigurationDialog (r : Replies) (p : Provider) : Provider :=
  match picked configurationActions (re_config r) with
  | None => p
  | Some action =>
      if bool_decide (action = "Add Item") then
        showAddItemDialog host (re_itemType r) (re_answers r) p
      else if bool_decide (action = "Manage Items") then
        showManageItemsDialog r p
      else if bool_decide (action = "Import Chrome Bookmarks") then
        importChromeBookmarks host (re_file r) p
      else if bool_decide (action = "Reset to Defaults") then
        clearAllItems (re_result r) p
      else p
  end.

(** ** The commands that [activate] registers *)

(** The four commands without argument; [vscode-dock.showFolderMenu] takes
    the item and is [showFolderMenu]. *)
Inductive PaletteCommand :=
  | AddItemCommand
  | AddFolderCommand
  | ImportChromeCommand
  | ConfigureCommand.

Definition command_id (c : PaletteCommand) : string :=
  match c with
  | AddItemCommand => "vscode-dock.addItem"
  | AddFolderCommand => "vscode-dock.addFolder"
  | ImportChromeCommand => "vscode-dock.importChromeBookmarks"
  | ConfigureCommand => "vscode-dock.configure"
  end.

Definition execute (c : PaletteCommand) (r : Replies) (p : Provider) : Provider :=
  match c with
  | AddItemCommand => showAddItemDialog host (re_itemType r) (re_answers r) p
  | AddFolderCommand =>
      showAddFolderDialog host (ans_name (re_answers r))
                          (ans_title (re_answers r)) (ans_color (re_answers r)) p
  | ImportChromeCommand => importChromeBookmarks host (re_file r) p
  | ConfigureCommand => showConfigurationDialog r p
  end.

(** A session: [activate] initializes the dock, then the commands run one
    after the other, each with the replies it gets. *)
Definition session (script : list (PaletteCommand * Replies)) (p : Provider)
    : Provider :=
  foldl (λ p step, execute step.1 step.2 p) (initialize p) script.

End Dialogs.

(** ** Ids in a scope *)

(** [item] is the object at position [i] of [l], and no object before it
    carries its id. *)
Definition first_with_id (l : list DockItem) (i : nat) (item : DockItem) : Prop :=
  l !! i = Some item ∧ ∀ j x, j < i → l !! j = Some x → id x ≠ id item.

(** How many objects of [l] carry the id [key]. *)
Definition occurrences (key : string) (l : list DockItem) : nat :=
  length (filter (λ i, id i = key) l).

(** The object that [showAddItemDialog] builds for the entry [c], before it
    is pushed. *)
Definition describe (host : Host) (c : AddChoice) (a : Answers) (p : Provider)
    : option DockItem * Provider :=
  match c with
  | ChooseApp =>
      createAppItem host (ans_name a) (ans_title a) (ans_command a) (ans_icon a) p
  | ChooseFile => createFileItem host (ans_uris a) (ans_title a) p
  | ChooseFolder => createFolderItem host (ans_uris a) (ans_title a) p
  | ChooseFolderGroup =>
      createFolderGroup host (ans_name a) (ans_title a) (ans_color a) p
  | ChooseLink => createLinkItem host (ans_url a) (ans_name a) (ans_title a) p
  end.

(** ** The bookmark tree, as the specification describes it *)

Definition is_url (node : BookmarkNode) : bool :=
  bool_decide (node_type node = Some "url").

Definition is_folder (node : BookmarkNode) : bool :=
  bool_decide (node_type node = Some "folder").

(** Every node of the tree below [node], depth first, a node before its
    children, whatever the types of the nodes are. *)
Fixpoint preorder (node : BookmarkNode) : list BookmarkNode :=
  node :: match node_children node with
          | Some cs => flat_map preorder cs
          | None => []
          end.

Definition all_nodes (data : BookmarksData) : list BookmarkNode :=
  flat_map preorder (default [] (bd_roots data)).

(** The url-typed nodes of the file, at any depth, in depth-first order. *)
Definition url_nodes (data : BookmarksData) : list BookmarkNode :=
  filter (λ node, is_url node = true) (all_nodes data).




(** ** The traversal of the import *)

(** The url nodes that the traversal of [parseBookmarkNode] reaches from
    [node]: the node itself when it is a url, else those reached from the
    children of a folder. *)
Fixpoint reached (node : BookmarkNode) : list BookmarkNode :=
  if is_url node then [node]
  else if is_folder node then
    match node_children node with
    | Some cs => flat_map reached cs
    | None => []
    end
  else [].

(** The traversal starts at the children of every root. *)
Definition reached_from_roots (data : BookmarksData) : list BookmarkNode :=
  flat_map (λ root, flat_map reached (default [] (node_children root)))
           (default [] (bd_roots data)).

(** The parse state after one link per node of [nodes] has been made. *)
Definition extend (host : Host) (st : ParseState) (nodes : list BookmarkNode) : ParseState :=
  foldl (λ st node,
           mkParseState (ps_items st ++ [importedItem host node st])
                        (S (ps_clock st)) (S (ps_random st)))
        st nodes.

(** The id of the link made at the [c]-th clock reading and [r]-th draw. *)
Definition chrome_id (host : Host) (c r : nat) : string :=
  "chrome-" +:+ pretty (Date_now host c) +:+ "-" +:+ Math_random host r.

(** [item] is the link that the import makes of [node]. *)
Definition import_of (node : BookmarkNode) (item : DockItem) : Prop :=
  type item = link ∧ name item = node_name node ∧ url item = node_url node
  ∧ icon item = Some "$(globe)" ∧ title item = None ∧ children item = None.

(** ** What a command may do to the list *)

(** The objects that the menus let the user edit or remove: folder groups,
    and items whose id is not the id of a default item. *)
Definition unprotected (it : DockItem) : Prop :=
  type it = folder_group ∨ id it ∉ defaultItemIds.

(** The objects that the menus hand to the methods that change one object:
    an unprotected top-level object, or a child of a folder group. *)
Definition editable (l : list DockItem) (r : ItemRef) : Prop :=
  match r with
  | TopLevel i => ∃ it, l !! i = Some it ∧ unprotected it
  | InFolder i j => ∃ f, l !! i = Some f ∧ type f = folder_group
  end.

(** The changes that rearrange or revise what the list holds, with the
    number of clock readings taken once the change is made: one editable
    object is replaced by an object with the same id and type; the first
    object that carries the id of an unprotected item of the list is
    removed; the first object that carries the id of an item trades places
    with an object of the list. *)
Inductive Curation (p : Provider) : list DockItem → nat → Prop :=
  | curate_object (r : ItemRef) (target it' : DockItem) (k : nat) :
      deref (dockItems p) r = Some target →
      editable (dockItems p) r →
      id it' = id target → type it' = type target →
      clock_calls p ≤ k →
      Curation p (assign (dockItems p) r it') k
  | curate_remove (i : nat) (item : DockItem) :
      item ∈ dockItems p → unprotected item →
      findIndex (has_id (id item)) (dockItems p) = Some i →
      Curation p (delete i (dockItems p)) (clock_calls p)
  | curate_swap (i j : nat) (item : DockItem) :
      findIndex (has_id (id item)) (dockItems p) = Some i →
      j < length (dockItems p) →
      Curation p (swap (dockItems p) i j) (clock_calls p).

(** All the changes of the top-level list: an item with a timestamp id is
    pushed; the links of an import are pushed; the list is reset; or the
    list is curated. *)
Inductive ListChange (host : Host) (p : Provider) : list DockItem → nat → Prop :=
  | change_push (newItem : DockItem) :
      id newItem = timestamp_id host (type_string (type newItem)) p →
      ListChange host p (dockItems p ++ [newItem]) (S (clock_calls p))
  | change_import (nodes : list BookmarkNode) :
      ListChange host p
        (dockItems p
         ++ imap (λ k node,
                    mkDockItem (chrome_id host (clock_calls p + k)
                                          (random_calls p + k))
                               link (node_name node) None None (node_url node)
                               (Some "$(globe)") None None None) nodes)
        (clock_calls p + length nodes)
  | change_reset :
      ListChange host p getDefaultItems (clock_calls p)
  | change_curate (l : list DockItem) (k : nat) :
      Curation p l k → ListChange host p l k.

(** [q] holds the list, the settings and the clock count of [p]. *)
Definition keeps (p q : Provider) : Prop :=
  dockItems q = dockItems p ∧ configuration q = configuration p
  ∧ clock_calls q = clock_calls p.

(** [q] holds the list [l], has saved it under [items] beside the other
    settings of [p], and has taken [k] clock readings. *)
Definition saves (p : Provider) (l : list DockItem) (k : nat) (q : Provider) : Prop :=
  dockItems q = l ∧ clock_calls q = k
  ∧ configuration q
    = mkConfiguration (Some l) (cfg_maxItems (configuration p))
                      (cfg_showIcons (configuration p))
                      (cfg_showTitles (configuration p)).

(** What one command does: nothing to the list, the settings and the clock
    count, or one change of the list, saved. *)
Definition effect (host : Host) (p q : Provider) : Prop :=
  keeps p q ∨ ∃ l k, ListChange host p l k ∧ saves p l k q.

(** What a method of Manage Items does: nothing, or one curation, saved. *)
Definition curates (p q : Provider) : Prop :=
  keeps p q ∨ ∃ l k, Curation p l k ∧ saves p l k q.

(** The objects of a list that carry the id of a default item. *)
Definition default_items (l : list DockItem) : list DockItem :=
  filter (λ it, id it ∈ defaultItemIds) l.

(** No folder group of the list carries the id of a default item. *)
Definition guarded (l : list DockItem) : Prop :=
  Forall (λ it, type it = folder_group → id it ∉ defaultItemIds) l.

(** The ids that a provider can hold after [k] clock readings, starting
    from the default items: a default id, the id of an item or child made at
    one of these readings, or the id of a link imported at one of them. *)
Definition made_by (host : Host) (k : nat) (i : string) : Prop :=
  i ∈ defaultItemIds
  ∨ (∃ t j, j < k ∧ i = type_string t +:+ "-" +:+ pretty (Date_now host j))
  ∨ (∃ j r, j < k ∧ i = chrome_id host j r).

(** The ids of the list are pairwise distinct and can all be held after
    [k] clock readings. *)
Definition distinct_ids (host : Host) (l : list DockItem) (k : nat) : Prop :=
  NoDup (id <$> l) ∧ Forall (made_by host k) (id <$> l).

(** A text of decimal digits. *)
Definition is_digit (c : Ascii.ascii) : bool :=
  (48 <=? Ascii.nat_of_ascii c) && (Ascii.nat_of_ascii c <=? 57).

Fixpoint all_digits (s : string) : bool :=
  match s with
  | EmptyString => true
  | String c s' => is_digit c && all_digits s'
  end.

(** ** Sample data *)

Definition provider_with (l : list DockItem) : Provider :=
  mkProvider [] l (mkConfiguration (Some l) None None None) [] 0 0.

Definition chrome_app : DockItem :=
  mkDockItem "app-1" app "Chrome" (Some "Chrome") None None (Some "$(chrome)")
             None None (Some "chrome.open").

Definition work_group : DockItem :=
  mkDockItem "folder-group-2" folder_group "Work" (Some "Work") None None
             (Some "$(folder-opened)") (Some "#007ACC") (Some []) None.

Definition docs_link : DockItem :=
  mkDockItem "link-3" link "Docs" (Some "Docs") None (Some "https://x.test")
             (Some "$(globe)") None None None.

(** Name and title kept, command answered with the empty string. *)
Definition clear_command : EditAnswers :=
  mkEditAnswers (Some "Chrome") (Some "Chrome") (Some "") (Some "$(chrome)")
                None None.

(** Name and title kept, the color entry with the empty value picked. *)
Definition clear_color : EditAnswers :=
  mkEditAnswers (Some "Work") (Some "Work") None None (Some PickDefault) None.

(** A second object that carries the id of [chrome_app]. *)
Definition chrome_twin : DockItem :=
  mkDockItem "app-1" app "Chromium" (Some "Chromium") None None
             (Some "$(chrome)") None None (Some "chromium.open").

Definition url_node (n u : string) : BookmarkNode :=
  mkNode (Some "url") n (Some u) None.

Definition folder_node (n : string) (cs : list BookmarkNode) : BookmarkNode :=
  mkNode (Some "folder") n None (Some cs).


(** Two roots; a link sits two folders deep. *)
Definition sample_bookmarks : BookmarksData :=
  mkBookmarksData
    (Some [ folder_node "Bookmarks bar"
              [ url_node "A" "https://a.test";
                folder_node "Sub" [ url_node "B" "https://b.test";
                                    folder_node "Empty" [] ];
                url_node "C" "https://c.test" ];
            folder_node "Other bookmarks" [ url_node "D" "https://d.test" ] ]).


(** A clock that gives the same reading at every call. *)
Definition stalled_host : Host :=
  mkHost (λ _, 1700000000000%N) (λ _, "0.5") (λ s, s) (λ _, "").

(** The answers that describe an app named Chrome. *)
Definition chrome_answers : Answers :=
  mkAnswers (Some "Chrome") None (Some "chrome.open") (Some "$(chrome)") None
            None None.

(** Five items, of which the settings let two be shown. *)
Definition five_items_max_two : Provider :=
  mkProvider [] (getDefaultItems ++ [docs_link])
             (mkConfiguration None (Some 2%Z) None None) [] 0 0.

(** A folder group that holds two links. *)
Definition reading_group : DockItem :=
  mkDockItem "folder-group-9" folder_group "Reading" (Some "Reading") None None
             (Some "$(folder-opened)") None
             (Some [docs_link;
                    mkDockItem "link-4" link "News" (Some "News") None
                               (Some "https://n.test") (Some "$(globe)") None
                               None None])
             None.

(** The answers that describe a link named Docs. *)
Definition docs_answers : Answers :=
  mkAnswers (Some "Docs") None None None (Some "https://x.test") None None.

(** A clock that reads 5, 6, 7, ... and a random source that prints the
    same text at every draw; [path] functions as on a name without
    directory or extension. *)
Definition sample_host : Host :=
  mkHost (λ k, (5 + N.of_nat k)%N) (λ _, "0.5") (λ s, s) (λ _, "").

(** A provider before its first start: nothing stored, nothing shown. *)
Definition fresh_provider : Provider :=
  mkProvider [] [] (mkConfiguration None None None None) [] 0 0.

(** Five items, of which the settings hide the last. *)
Definition five_items_hide_one : Provider :=
  mkProvider [] (getDefaultItems ++ [docs_link])
             (mkConfiguration None (Some (-1)%Z) None None) [] 0 0.

(** The user opens Manage Items, picks the fifth entry, the action Delete,
    and confirms; asked to add, the user describes the Chrome app. *)
Definition sample_replies : Replies :=
  mkReplies (Some 1) (Some ChooseApp) chrome_answers (Parsed sample_bookmarks)
            (Some "Yes") (Some 4) (Some 1) clear_command (Some PickGreen)
            (Some IntoLink) None.

(** A folder group whose two children carry the same id. *)
Definition twins_group : DockItem :=
  mkDockItem "folder-group-7" folder_group "Browsers" (Some "Browsers") None
             None (Some "$(folder-opened)") None
             (Some [chrome_app; chrome_twin]) None.

(** Three items with three ids. *)
Definition three_items : Provider :=
  provider_with [docs_link; chrome_app; work_group].

(** * Properties *)

(** ** The length of a name *)

(** A name of ASCII characters has as many units as bytes. *)
Lemma js_length_ascii (s : string) :
  Forall (λ b, Ascii.nat_of_ascii b < 128) (String.list_ascii_of_string s) →
  js_length s = String.length s.
Proof.
  induction s as [|b s IH]; simpl; [done|].
  intros [Hb Hs]%Forall_cons. rewrite IH by done. unfold utf16_units.
  by destruct (Nat.ltb_spec (Ascii.nat_of_ascii b) 128); [|lia].
Qed.

(** Eleven accented letters take twenty-two bytes and eleven units, so a
    name made of them is short enough to be shown beside the icon. *)
Lemma js_length_accented :
  String.length "ééééééééééé" = 22 ∧ js_length "ééééééééééé" = 11.
Proof. split; reflexivity. Qed.

(** ** Elementary facts about the state setters *)

Lemma dockItems_show m p : dockItems (show m p) = dockItems p.
Proof. reflexivity. Qed.

Lemma dockItems_createDockItems p : dockItems (createDockItems p) = dockItems p.
Proof. reflexivity. Qed.

Lemma dockItems_saveConfiguration p : dockItems (saveConfiguration p) = dockItems p.
Proof. reflexivity. Qed.

Lemma dockItems_tick p : dockItems (tick p) = dockItems p.
Proof. reflexivity. Qed.

Lemma dockItems_set l p : dockItems (set_dockItems l p) = l.
Proof. reflexivity. Qed.

Create Rewrite HintDb dock.
#[export] Hint Rewrite dockItems_show dockItems_createDockItems
  dockItems_saveConfiguration dockItems_tick dockItems_set : dock.

(** ** Reset *)

(** C7. Whatever the provider held before, [clearAllItems] confirmed with
    the button Yes leaves exactly the four default items, in the order
    terminal, explorer, git, extensions; nothing of the prior list survives,
    and the same list is what is written to the settings. *)
Theorem clearAllItems_yields_defaults (p : Provider) :
  dockItems (clearAllItems (Some "Yes") p) = getDefaultItems
  ∧ cfg_items (configuration (clearAllItems (Some "Yes") p)) = Some getDefaultItems
  ∧ id <$> getDefaultItems = ["terminal"; "explorer"; "git"; "extensions"]
  ∧ length (dockItems (clearAllItems (Some "Yes") p)) = 4.
Proof.
  unfold clearAllItems.
  rewrite bool_decide_eq_true_2 by reflexivity.
  repeat split.
Qed.

(** Any other answer, or closing the warning, changes nothing. *)
Lemma clearAllItems_declined (result : option string) (p : Provider) :
  result ≠ Some "Yes" → clearAllItems result p = p.
Proof.
  intros Hno. unfold clearAllItems.
  by rewrite bool_decide_eq_false_2.
Qed.

(** ** Color lookup *)

Lemma colorMap_unknown (color : string) :
  color ∉ knownColors → colorMap !! color = None.
Proof. intros Hc. by apply not_elem_of_list_to_map_1. Qed.

Lemma colorNames_unknown (color : string) :
  color ∉ knownColors → colorNames !! color = None.
Proof. intros Hc. by apply not_elem_of_list_to_map_1. Qed.

(** For a color that is neither one of the eight codes nor the name of a
    member of [Object.prototype], both lookups fall back. *)
Lemma color_fallback (color : string) :
  color ∉ knownColors → color ∉ objectPrototypeKeys →
  getColorIcon color = JsString "⚪" ∧ getColorName color = JsString "Custom".
Proof.
  intros Hc Hp. unfold getColorIcon, getColorName, js_get.
  rewrite colorMap_unknown, colorNames_unknown by done.
  by rewrite bool_decide_eq_false_2.
Qed.

(** The eight codes are found, whatever else the string could name. *)
Lemma color_known (color : string) :
  color ∈ knownColors →
  ∃ glyph cname, getColorIcon color = JsString glyph
                 ∧ getColorName color = JsString cname
                 ∧ glyph ≠ "⚪" ∧ cname ≠ "Custom".
Proof.
  unfold knownColors. rewrite !elem_of_cons, elem_of_nil.
  intros H. repeat destruct H as [->|H]; try done;
    eexists _, _; repeat split; by vm_compute.
Qed.

(** C9. The color [constructor] is none of the eight codes, yet the lookup
    [colorMap[color]] finds the member that every object literal inherits,
    which is truthy: [getColorIcon] and [getColorName] return that function
    instead of the white circle and of Custom, and the entry shows the text
    of the function. *)
Theorem getColorIcon_inherited_key :
  ("constructor" ∉ knownColors)
  ∧ getColorIcon "constructor" = JsInherited "constructor"
  ∧ getColorName "constructor" = JsInherited "constructor"
  ∧ getColorIcon "constructor" ≠ JsString "⚪"
  ∧ getColorName "constructor" ≠ JsString "Custom"
  ∧ sb_text (renderItem true true 0
               (mkDockItem "g" folder_group "G" None None None
                           (Some "$(folder-opened)") (Some "constructor")
                           (Some []) None))
    = "function Object() { [native code] } $(folder-opened) G"
  ∧ sb_tooltip (renderItem true true 0
                  (mkDockItem "g" folder_group "G" None None None
                              (Some "$(folder-opened)") (Some "constructor")
                              (Some []) None))
    = "G (function Object() { [native code] })".
Proof.
  split; [apply (bool_decide_unpack _); by vm_compute|].
  repeat split; by vm_compute.
Qed.

(** ** Projection *)

Lemma slice0_nonneg {A} (l : list A) (N : Z) :
  (0 ≤ N)%Z → slice0 l N = take (Z.to_nat N `min` length l) l.
Proof.
  intros HN. unfold slice0.
  destruct (Z.ltb_spec N 0) as [?|_]; [lia|].
  f_equal. lia.
Qed.

(** A negative setting hides that many items from the end instead. *)
Lemma slice0_negative {A} (l : list A) (N : Z) :
  (N < 0)%Z → slice0 l N = take (length l - Z.to_nat (- N)) l.
Proof.
  intros HN. unfold slice0.
  destruct (Z.ltb_spec N 0) as [_|?]; [|lia].
  f_equal. lia.
Qed.

(** C6. With the setting [maxItems] at a count [N], [createDockItems] leaves
    in the status bar the entries of the first [min N length] items, in list
    order, followed by the add button and nothing else; two of five items
    give three entries. *)
Theorem createDockItems_renders_prefix (p : Provider) (N : Z) :
  (0 ≤ N)%Z →
  get_maxItems (configuration p) = N →
  let l := dockItems p in
  let n := Z.to_nat N `min` length l in
  let entry := renderItem (get_showIcons (configuration p))
                          (get_showTitles (configuration p)) in
  statusBarItems (createDockItems p) = imap entry (take n l) ++ [addButton]
  ∧ length (statusBarItems (createDockItems p)) = n + 1
  ∧ (∀ k item, k < n → l !! k = Some item →
       statusBarItems (createDockItems p) !! k = Some (entry k item))
  ∧ statusBarItems (createDockItems p) !! n = Some addButton
  ∧ (N = 2%Z → length l = 5 → length (statusBarItems (createDockItems p)) = 3).
Proof.
  intros HN Hmax l n entry.
  assert (Hsb : statusBarItems (createDockItems p)
                = imap entry (take n l) ++ [addButton]).
  { unfold createDockItems. simpl. rewrite Hmax, slice0_nonneg by done.
    reflexivity. }
  assert (Hlen : length (imap entry (take n l)) = n).
  { rewrite length_imap, length_take. subst n. lia. }
  rewrite Hsb. split_and!.
  - reflexivity.
  - rewrite length_app, Hlen. reflexivity.
  - intros k item Hk Hitem.
    rewrite lookup_app_l by lia.
    rewrite list_lookup_imap, lookup_take_lt by done.
    by rewrite Hitem.
  - rewrite lookup_app_r by lia.
    by rewrite Hlen, Nat.sub_diag.
  - intros -> Hfive. rewrite length_app, Hlen. subst n.
    rewrite Hfive. reflexivity.
Qed.

(** ** References *)

Lemma deref_assign (l : list DockItem) (r : ItemRef) (it it' : DockItem) :
  deref l r = Some it → deref (assign l r it') r = Some it'.
Proof.
  destruct r as [i|i j]; simpl.
  - intros Hi. apply list_lookup_insert_eq. by eapply lookup_lt_Some.
  - destruct (l !! i) as [f|] eqn:Hf; [|done].
    destruct (children f) as [cs|] eqn:Hcs; [|done].
    intros Hj.
    rewrite list_lookup_insert_eq by (by eapply lookup_lt_Some).
    simpl. apply list_lookup_insert_eq. by eapply lookup_lt_Some.
Qed.

Lemma length_assign (l : list DockItem) (r : ItemRef) (it : DockItem) :
  length (assign l r it) = length l.
Proof.
  destruct r as [i|i j]; simpl; [apply length_insert|].
  destruct (l !! i) as [f|]; [|done].
  destruct (children f); [apply length_insert|done].
Qed.

(** An update of a top-level object leaves every other position alone. *)
Lemma assign_other (l : list DockItem) (i k : nat) (it : DockItem) :
  i ≠ k → assign l (TopLevel i) it !! k = l !! k.
Proof. intros Hne. simpl. by apply list_lookup_insert_ne. Qed.

(** ** Editing *)

(** The fields that [editFields] writes, prompt by prompt. *)
Lemma editFields_spec (a : EditAnswers) (item : DockItem) (n t : string) :
  newName a = Some n → newTitle a = Some t →
  ∃ item',
    editFields a item = Some item'
    ∧ id item' = id item ∧ type item' = type item
    ∧ name item' = n ∧ title item' = Some t
    ∧ command item' =
        (if bool_decide (type item = app)
         then from_option Some (command item) (newCommand a)
         else command item)
    ∧ icon item' =
        (if bool_decide (type item = app)
         then from_option Some (icon item) (newIcon a)
         else icon item)
    ∧ color item' =
        (if bool_decide (type item = folder_group)
         then match editColor a with
              | Some c => or_undefined (Some (pick_value c))
              | None => color item
              end
         else color item)
    ∧ url item' =
        (if bool_decide (type item = link)
         then from_option Some (url item) (newUrl a)
         else url item).
Proof.
  intros Hn Ht. unfold editFields. rewrite Hn, Ht.
  eexists. split; [reflexivity|].
  unfold when_type.
  destruct item as [i ty nm ti pa u ic co ch cm]; simpl.
  destruct ty, (newCommand a), (newIcon a), (editColor a), (newUrl a);
    simpl; repeat split.
Qed.

(** C1, as the code has it.  Once name and title are answered, [editItem]
    writes every variant-specific field whose prompt got a defined answer,
    the empty string included: an empty answer empties the command, the icon
    or the URL, and the color entry with the empty value removes the color.
    Only a dismissed prompt leaves the field as it was. *)
Theorem editItem_writes_defined_answers (item : ItemRef) (a : EditAnswers)
    (p : Provider) (it : DockItem) (n t : string) :
  deref (dockItems p) item = Some it →
  newName a = Some n → newTitle a = Some t →
  ∃ it',
    deref (dockItems (editItem item a p)) item = Some it'
    ∧ (type it = app →
         command it' = match newCommand a with
                       | Some c => Some c
                       | None => command it
                       end
         ∧ icon it' = match newIcon a with
                      | Some i => Some i
                      | None => icon it
                      end)
    ∧ (type it = folder_group →
         color it' = match editColor a with
                     | Some c => if bool_decide (pick_value c = "")
                                 then None else Some (pick_value c)
                     | None => color it
                     end)
    ∧ (type it = link →
         url it' = match newUrl a with
                   | Some u => Some u
                   | None => url it
                   end).
Proof.
  intros Hit Hn Ht.
  destruct (editFields_spec a it n t Hn Ht)
    as (it' & Hedit & _ & _ & _ & _ & Hcmd & Hicon & Hcolor & Hurl).
  exists it'. split.
  - unfold editItem. rewrite Hit, Hedit. autorewrite with dock.
    by eapply deref_assign.
  - split_and!; intros Hty; rewrite Hty in *; simpl in *.
    + rewrite Hcmd, Hicon. by destruct (newCommand a), (newIcon a).
    + rewrite Hcolor. destruct (editColor a) as [c|]; [|done].
      unfold or_undefined, truthy. by destruct c.
    + rewrite Hurl. by destruct (newUrl a).
Qed.

(** C1 as the specification words it fails: an app item whose command
    prompt is answered with the empty string has its command emptied, and a
    folder group loses its color when the entry with the empty value is
    picked. *)
Lemma editItem_empty_answer_overwrites :
  type chrome_app = app
  ∧ newCommand clear_command = Some ""
  ∧ command chrome_app = Some "chrome.open"
  ∧ command <$> deref (dockItems (editItem (TopLevel 0) clear_command
                                           (provider_with [chrome_app])))
                      (TopLevel 0)
    = Some (Some "")
  ∧ type work_group = folder_group
  ∧ pick_value PickDefault = ""
  ∧ color work_group = Some "#007ACC"
  ∧ color <$> deref (dockItems (editItem (TopLevel 0) clear_color
                                         (provider_with [work_group])))
                    (TopLevel 0)
    = Some None.
Proof. repeat split. Qed.

(** ** Adding into a folder *)

Section Adding.

Variable host : Host.

Lemma createForFolder_dockItems (c : FolderAddChoice) (a : Answers) (p : Provider) :
  dockItems (createForFolder host c a p).2 = dockItems p.
Proof.
  unfold createForFolder, createAppItem, createFileItem, createFolderItem,
    createLinkItem.
  destruct c; simpl;
    repeat (case_match; simpl; try done).
Qed.

(** The object that [addItemToFolder] was given, after an item was built. *)
Lemma addItemToFolder_created (folderItem : ItemRef) (c : FolderAddChoice)
    (a : Answers) (p : Provider) (target newItem : DockItem) :
  deref (dockItems p) folderItem = Some target →
  (createForFolder host c a p).1 = Some newItem →
  deref (dockItems (addItemToFolder host folderItem (Some c) a p)) folderItem
  = Some (appendChild newItem target).
Proof.
  intros Htarget Hnew. unfold addItemToFolder. rewrite Htarget.
  pose proof (createForFolder_dockItems c a p) as Hsame.
  destruct (createForFolder host c a p) as [o p1]. simpl in *. subst o.
  autorewrite with dock. rewrite Hsame. by eapply deref_assign.
Qed.

(** C2, as the code has it.  [addItemToFolder] never looks at the type of
    the object it is given: once the user has described the new item, the
    item becomes the last child of that object, whose list of children is
    created when there is none.  The list stays as it was only when the
    type pick is dismissed or no item is built. *)
Theorem addItemToFolder_appends_to_any_target (folderItem : ItemRef)
    (c : FolderAddChoice) (a : Answers) (p : Provider) (target : DockItem) :
  deref (dockItems p) folderItem = Some target →
  (∀ newItem,
     (createForFolder host c a p).1 = Some newItem →
     deref (dockItems (addItemToFolder host folderItem (Some c) a p)) folderItem
     = Some (appendChild newItem target)
     ∧ children (appendChild newItem target)
       = Some (default [] (children target) ++ [newItem])
     ∧ type (appendChild newItem target) = type target)
  ∧ ((createForFolder host c a p).1 = None →
     dockItems (addItemToFolder host folderItem (Some c) a p) = dockItems p)
  ∧ addItemToFolder host folderItem None a p = p.
Proof.
  intros Htarget. split_and!.
  - intros newItem Hnew.
    split_and!; [by apply addItemToFolder_created | done | done].
  - intros Hnone. unfold addItemToFolder. rewrite Htarget.
    pose proof (createForFolder_dockItems c a p) as Hsame.
    destruct (createForFolder host c a p) as [o p1]. simpl in *. by subst o.
  - unfold addItemToFolder. by destruct (deref (dockItems p) folderItem).
Qed.

End Adding.

(** C2 as the specification words it fails: the Terminal item is an
    app, and adding a link into it gives it a child. *)
Lemma addItemToFolder_accepts_app_target :
  type <$> deref getDefaultItems (TopLevel 0) = Some app
  ∧ children <$> deref getDefaultItems (TopLevel 0) = Some None
  ∧ children <$>
      deref (dockItems (addItemToFolder sample_host (TopLevel 0) (Some IntoLink)
                                        docs_answers
                                        (provider_with getDefaultItems)))
            (TopLevel 0)
    = Some (Some [mkDockItem "link-5" link "Docs" (Some "Docs") None
                             (Some "https://x.test") (Some "$(globe)") None
                             None None])
  ∧ dockItems (addItemToFolder sample_host (TopLevel 0) (Some IntoLink)
                               docs_answers (provider_with getDefaultItems))
    ≠ getDefaultItems.
Proof. split_and!; [by vm_compute..|]. intros H. by vm_compute in H. Qed.

(** ** Reordering: moving down and back up *)

Lemma findIndex_Some {A} (f : A → bool) (l : list A) (i : nat) :
  findIndex f l = Some i
  ↔ (∃ x, l !! i = Some x ∧ f x = true)
    ∧ (∀ j y, j < i → l !! j = Some y → f y = false).
Proof.
  revert i. induction l as [|a l IH]; intros i; simpl.
  - split; [done|]. by intros [(x & Hx & _) _].
  - destruct (f a) eqn:Hfa.
    + split.
      * intros [= <-]. split; [by exists a|]. intros j y Hj. lia.
      * intros [(x & Hx & Hfx) Hbefore]. destruct i as [|i]; [done|].
        specialize (Hbefore 0 a ltac:(lia) eq_refl). congruence.
    + split.
      * destruct (findIndex f l) as [k|] eqn:Hk; [|done].
        intros [= <-]. destruct (proj1 (IH k) eq_refl) as [Hat Hbefore].
        split; [done|]. intros [|j] y Hj; simpl.
        -- by intros [= <-].
        -- apply Hbefore. lia.
      * intros [(x & Hx & Hfx) Hbefore]. destruct i as [|i].
        { simpl in Hx. congruence. }
        rewrite (proj2 (IH i)); [done|].
        split; [by exists x|]. intros j y Hj Hy.
        apply (Hbefore (S j) y); [lia|done].
Qed.

Lemma length_swap {A} (l : list A) (i j : nat) : length (swap l i j) = length l.
Proof.
  unfold swap. destruct (l !! i), (l !! j); try done.
  by rewrite !length_insert.
Qed.

Lemma swap_lookup {A} (l : list A) (i j : nat) (x y : A) :
  i ≠ j → l !! i = Some x → l !! j = Some y →
  swap l i j !! i = Some y ∧ swap l i j !! j = Some x
  ∧ (∀ k, k ≠ i → k ≠ j → swap l i j !! k = l !! k).
Proof.
  intros Hne Hi Hj. unfold swap. rewrite Hi, Hj.
  pose proof (lookup_lt_Some _ _ _ Hi). pose proof (lookup_lt_Some _ _ _ Hj).
  split_and!.
  - rewrite list_lookup_insert_ne by done. by apply list_lookup_insert_eq.
  - apply list_lookup_insert_eq. by rewrite length_insert.
  - intros k Hki Hkj. by rewrite !list_lookup_insert_ne.
Qed.

(** Swapping the same two positions again undoes the swap. *)
Lemma swap_swap {A} (l : list A) (i j : nat) (x y : A) :
  i ≠ j → l !! i = Some x → l !! j = Some y → swap (swap l i j) j i = l.
Proof.
  intros Hne Hi Hj.
  destruct (swap_lookup l i j x y Hne Hi Hj) as (Hi' & Hj' & Hother).
  destruct (swap_lookup (swap l i j) j i x y (not_eq_sym Hne) Hj' Hi')
    as (Hj'' & Hi'' & Hother').
  apply list_eq. intros k.
  destruct (decide (k = i)) as [->|Hki]; [congruence|].
  destruct (decide (k = j)) as [->|Hkj]; [congruence|].
  rewrite Hother' by done. by apply Hother.
Qed.

(** After the swap the id is found one position further, provided the
    object that moved up does not carry it too. *)
Lemma findIndex_swap_next {A} (f : A → bool) (l : list A) (i : nat) (next : A) :
  findIndex f l = Some i → l !! S i = Some next → f next = false →
  findIndex f (swap l i (S i)) = Some (S i).
Proof.
  intros [(x & Hx & Hfx) Hbefore]%findIndex_Some Hnext Hfnext.
  destruct (swap_lookup l i (S i) x next ltac:(lia) Hx Hnext)
    as (Hi' & Hj' & Hother).
  apply findIndex_Some. split; [by exists x|].
  intros j y Hj Hy. destruct (decide (j = i)) as [->|Hji].
  - congruence.
  - rewrite Hother in Hy by lia. apply (Hbefore j y); [lia|done].
Qed.

Lemma moveItem_in_bounds (item : DockItem) (direction : Z) (p : Provider)
    (index : nat) :
  findIndex (has_id (id item)) (dockItems p) = Some index →
  (0 ≤ Z.of_nat index + direction < Z.of_nat (length (dockItems p)))%Z →
  dockItems (moveItem item direction p)
  = swap (dockItems p) index (Z.to_nat (Z.of_nat index + direction)).
Proof.
  intros Hfind Hin. unfold moveItem. rewrite Hfind.
  destruct (Z.ltb_spec (Z.of_nat index + direction) 0) as [?|?]; [lia|].
  destruct (Z.leb_spec (Z.of_nat (length (dockItems p)))
                       (Z.of_nat index + direction)) as [?|?]; [lia|].
  reflexivity.
Qed.

(** C4, as the code has it.  [moveItem] finds the item by the first
    occurrence of its id.  Moving down and then up restores the list when
    the move down is in bounds and the object that follows the item does
    not carry the same id. *)
Theorem moveItem_down_up_restores (item : DockItem) (p : Provider) (i : nat)
    (next : DockItem) :
  findIndex (has_id (id item)) (dockItems p) = Some i →
  dockItems p !! S i = Some next →
  id next ≠ id item →
  dockItems (moveItem item (-1) (moveItem item 1 p)) = dockItems p.
Proof.
  intros Hfind Hnext Hid.
  pose proof (lookup_lt_Some _ _ _ Hnext) as Hlen.
  assert (Hdown : dockItems (moveItem item 1 p) = swap (dockItems p) i (S i)).
  { rewrite (moveItem_in_bounds item 1 p i) by (done || lia).
    f_equal. lia. }
  assert (Hfind' : findIndex (has_id (id item)) (dockItems (moveItem item 1 p))
                   = Some (S i)).
  { rewrite Hdown. apply (findIndex_swap_next _ _ _ next); [done..|].
    unfold has_id. by apply bool_decide_eq_false_2. }
  rewrite (moveItem_in_bounds item (-1) _ (S i)) by
    (done || rewrite Hdown, length_swap; lia).
  rewrite Hdown. replace (Z.to_nat (Z.of_nat (S i) + -1)) with i by lia.
  apply findIndex_Some in Hfind as [(x & Hx & _) _].
  by apply (swap_swap _ _ _ x next); [lia|..].
Qed.

(** In a list whose ids are pairwise distinct the neighbour never shares the
    id, so the round trip always restores the order. *)
Lemma moveItem_down_up_unique_ids (item : DockItem) (p : Provider) (i : nat) :
  NoDup (id <$> dockItems p) →
  findIndex (has_id (id item)) (dockItems p) = Some i →
  S i < length (dockItems p) →
  dockItems (moveItem item (-1) (moveItem item 1 p)) = dockItems p.
Proof.
  intros Hnodup Hfind Hlen.
  destruct (lookup_lt_is_Some_2 (dockItems p) (S i) Hlen) as [next Hnext].
  pose proof Hfind as [(x & Hx & Hfx) _]%findIndex_Some.
  assert (id next ≠ id item) as Hid.
  { unfold has_id in Hfx. apply bool_decide_eq_true_1 in Hfx.
    intros Heq.
    assert (i = S i); [|lia].
    apply (NoDup_lookup _ _ _ (id x) Hnodup); rewrite list_lookup_fmap.
    - by rewrite Hx.
    - rewrite Hnext. simpl. congruence. }
  assert (Hdown : dockItems (moveItem item 1 p) = swap (dockItems p) i (S i)).
  { rewrite (moveItem_in_bounds item 1 p i) by (done || lia).
    f_equal. lia. }
  assert (Hfind' : findIndex (has_id (id item)) (dockItems (moveItem item 1 p))
                   = Some (S i)).
  { rewrite Hdown. apply (findIndex_swap_next _ _ _ next); [done..|].
    unfold has_id. by apply bool_decide_eq_false_2. }
  rewrite (moveItem_in_bounds item (-1) _ (S i)) by
    (done || rewrite Hdown, length_swap; lia).
  rewrite Hdown. replace (Z.to_nat (Z.of_nat (S i) + -1)) with i by lia.
  by apply (swap_swap _ _ _ x next); [lia|..].
Qed.

(** C4 as the specification words it fails on a list in which the
    item is followed by an object with the same id: both moves are in
    bounds, and the list ends up in a third order. *)
Lemma moveItem_down_up_duplicate_id :
  dockItems (provider_with [docs_link; chrome_app; chrome_twin]) !! 1
  = Some chrome_app
  ∧ dockItems (moveItem chrome_app 1
                 (provider_with [docs_link; chrome_app; chrome_twin]))
    = [docs_link; chrome_twin; chrome_app]
  ∧ dockItems (moveItem chrome_app (-1)
                 (moveItem chrome_app 1
                    (provider_with [docs_link; chrome_app; chrome_twin])))
    = [chrome_twin; docs_link; chrome_app]
  ∧ messages (moveItem chrome_app (-1)
                (moveItem chrome_app 1
                   (provider_with [docs_link; chrome_app; chrome_twin])))
    = [Information ("Moved " +:+ quoted "Chrome" +:+ " down successfully.");
       Information ("Moved " +:+ quoted "Chrome" +:+ " up successfully.")]
  ∧ [chrome_twin; docs_link; chrome_app]
    ≠ [docs_link; chrome_app; chrome_twin].
Proof. split_and!; [by vm_compute..|]. intros H. by vm_compute in H. Qed.

(** ** Reordering: the bounds check *)

Lemma findIndex_first_with_id (l : list DockItem) (i : nat) (item : DockItem) :
  first_with_id l i item → findIndex (has_id (id item)) l = Some i.
Proof.
  intros [Hitem Hbefore]. apply findIndex_Some. split.
  - exists item. split; [done|]. unfold has_id. by apply bool_decide_eq_true_2.
  - intros j y Hj Hy. unfold has_id. apply bool_decide_eq_false_2. eauto.
Qed.

Lemma NoDup_first_with_id (l : list DockItem) (i : nat) (item : DockItem) :
  NoDup (id <$> l) → l !! i = Some item → first_with_id l i item.
Proof.
  intros Hnodup Hitem. split; [done|]. intros j x Hj Hx Heq.
  assert (j = i); [|lia].
  apply (NoDup_lookup _ _ _ (id item) Hnodup); rewrite list_lookup_fmap.
  - rewrite Hx. simpl. congruence.
  - by rewrite Hitem.
Qed.

(** C5. [moveItem] measures the bounds from the first object of the list
    that carries the id of the item.  When the index of that object plus
    the direction falls outside the list, [moveItem] only shows its notice:
    the list, the settings and the status bar stay as they were.
    [moveItemInFolder] does the same for the children of the folder it is
    given.  That object is the item itself, and the bounds are those of its
    own move, when no object before the item carries its id, as in every
    list whose ids are pairwise distinct. *)
Theorem move_out_of_bounds_is_void (item : DockItem) (direction : Z)
    (p : Provider) :
  (∀ index,
     findIndex (has_id (id item)) (dockItems p) = Some index →
     (Z.of_nat index + direction < 0
      ∨ Z.of_nat (length (dockItems p)) ≤ Z.of_nat index + direction)%Z →
     moveItem item direction p
     = show (Information "Cannot move item in that direction.") p)
  ∧ (∀ folder f cs index,
       deref (dockItems p) folder = Some f →
       children f = Some cs →
       findIndex (has_id (id item)) cs = Some index →
       (Z.of_nat index + direction < 0
        ∨ Z.of_nat (length cs) ≤ Z.of_nat index + direction)%Z →
       moveItemInFolder item folder direction p
       = show (Information
                 "Cannot move item in that direction within the folder.") p)
  ∧ (∀ i,
       first_with_id (dockItems p) i item →
       (Z.of_nat i + direction < 0
        ∨ Z.of_nat (length (dockItems p)) ≤ Z.of_nat i + direction)%Z →
       moveItem item direction p
       = show (Information "Cannot move item in that direction.") p)
  ∧ (∀ folder f cs i,
       deref (dockItems p) folder = Some f →
       children f = Some cs →
       first_with_id cs i item →
       (Z.of_nat i + direction < 0
        ∨ Z.of_nat (length cs) ≤ Z.of_nat i + direction)%Z →
       moveItemInFolder item folder direction p
       = show (Information
                 "Cannot move item in that direction within the folder.") p)
  ∧ (∀ l i, NoDup (id <$> l) → l !! i = Some item → first_with_id l i item).
Proof.
  assert (Htop : ∀ index,
            findIndex (has_id (id item)) (dockItems p) = Some index →
            (Z.of_nat index + direction < 0
             ∨ Z.of_nat (length (dockItems p)) ≤ Z.of_nat index + direction)%Z →
            moveItem item direction p
            = show (Information "Cannot move item in that direction.") p).
  { intros index Hfind Hout. unfold moveItem. rewrite Hfind.
    destruct (Z.ltb_spec (Z.of_nat index + direction) 0) as [?|?]; [done|].
    destruct (Z.leb_spec (Z.of_nat (length (dockItems p)))
                         (Z.of_nat index + direction)) as [?|?]; [done|lia]. }
  assert (Hchild : ∀ folder f cs index,
            deref (dockItems p) folder = Some f →
            children f = Some cs →
            findIndex (has_id (id item)) cs = Some index →
            (Z.of_nat index + direction < 0
             ∨ Z.of_nat (length cs) ≤ Z.of_nat index + direction)%Z →
            moveItemInFolder item folder direction p
            = show (Information
                      "Cannot move item in that direction within the folder.") p).
  { intros folder f cs index Hf Hcs Hfind Hout.
    unfold moveItemInFolder, moveChild. rewrite Hf, Hcs, Hfind.
    destruct (Z.ltb_spec (Z.of_nat index + direction) 0) as [?|?]; [done|].
    destruct (Z.leb_spec (Z.of_nat (length cs))
                         (Z.of_nat index + direction)) as [?|?]; [done|lia]. }
  split_and!; [done|done| | |].
  - intros i Hfirst. by apply Htop, findIndex_first_with_id.
  - intros folder f cs i Hf Hcs Hfirst.
    by apply (Hchild folder f cs i), findIndex_first_with_id.
  - intros l i. apply NoDup_first_with_id.
Qed.

(** C5 as the specification words it fails on a list in which an object
    before the item carries the same id.  The last object cannot move
    down; yet no notice is shown, the first object with the id is moved
    down in its place, and the move is reported as done.  The same happens
    among the children of a folder. *)
Lemma move_out_of_bounds_twin_moves :
  dockItems (provider_with [chrome_app; chrome_twin]) !! 1 = Some chrome_twin
  ∧ length (dockItems (provider_with [chrome_app; chrome_twin])) = 2
  ∧ dockItems (moveItem chrome_twin 1 (provider_with [chrome_app; chrome_twin]))
    = [chrome_twin; chrome_app]
  ∧ messages (moveItem chrome_twin 1 (provider_with [chrome_app; chrome_twin]))
    = [Information ("Moved " +:+ quoted "Chromium" +:+ " down successfully.")]
  ∧ children twins_group = Some [chrome_app; chrome_twin]
  ∧ children <$> dockItems (moveItemInFolder chrome_twin (TopLevel 0) 1
                              (provider_with [twins_group]))
    = [Some [chrome_twin; chrome_app]]
  ∧ [chrome_twin; chrome_app] ≠ [chrome_app; chrome_twin].
Proof. split_and!; [by vm_compute..|]. intros H. by vm_compute in H. Qed.

(** ** Importing bookmarks *)

(** Induction on a node with the hypothesis for every child. *)
Lemma BookmarkNode_children_ind (P : BookmarkNode → Prop) :
  (∀ node, Forall P (default [] (node_children node)) → P node) →
  ∀ node, P node.
Proof.
  intros Hstep. fix IH 1. intros node. apply Hstep.
  destruct node as [ty nm u [cs|]]; simpl; [|constructor].
  induction cs as [|c cs IHcs]; constructor; [apply IH|apply IHcs].
Qed.

Section Bookmarks.

Variable host : Host.

Lemma extend_app (st : ParseState) (ns ms : list BookmarkNode) :
  extend host st (ns ++ ms) = extend host (extend host st ns) ms.
Proof. unfold extend. apply foldl_app. Qed.

(** [parseBookmarkNode] makes one link for every node it reaches, in the
    order in which it reaches them. *)
Lemma parseBookmarkNode_reached (node : BookmarkNode) (st : ParseState) :
  parseBookmarkNode host node st = extend host st (reached node).
Proof.
  revert st. induction node as [node IH] using BookmarkNode_children_ind.
  intros st. destruct node as [ty nm u ch]. simpl. unfold is_url, is_folder.
  simpl. case_bool_decide; [done|]. case_bool_decide; [|done].
  destruct ch as [cs|]; [|done]. simpl in IH.
  revert st. induction cs as [|c cs IHcs]; intros st; [done|].
  apply Forall_cons in IH as [Hc Hcs]. simpl.
  rewrite Hc, extend_app. by apply IHcs.
Qed.

Lemma parseEach_reached (cs : list BookmarkNode) (st : ParseState) :
  parseEach host cs st = extend host st (flat_map reached cs).
Proof.
  unfold parseEach. revert st. induction cs as [|c cs IH]; intros st; [done|].
  simpl. by rewrite parseBookmarkNode_reached, extend_app, IH.
Qed.

Lemma parseChromeBookmarks_reached (data : BookmarksData) (p : Provider) :
  parseChromeBookmarks host data p
  = extend host (mkParseState [] (clock_calls p) (random_calls p))
           (reached_from_roots data).
Proof.
  unfold parseChromeBookmarks, reached_from_roots.
  generalize (mkParseState [] (clock_calls p) (random_calls p)).
  destruct (bd_roots data) as [roots|]; [|done]. simpl.
  induction roots as [|root roots IH]; intros st; [done|].
  simpl. rewrite extend_app, <- IH. f_equal.
  unfold parseRoot. destruct (node_children root); [|done].
  apply parseEach_reached.
Qed.

(** The links that [extend] makes, with the ids they get. *)
Lemma extend_items (st : ParseState) (ns : list BookmarkNode) :
  ps_items (extend host st ns)
  = ps_items st
    ++ imap (λ k node,
               mkDockItem (chrome_id host (ps_clock st + k) (ps_random st + k))
                          link (node_name node) None None (node_url node)
                          (Some "$(globe)") None None None) ns
  ∧ ps_clock (extend host st ns) = ps_clock st + length ns
  ∧ ps_random (extend host st ns) = ps_random st + length ns.
Proof.
  revert st. induction ns as [|n ns IH]; intros st.
  - simpl. by rewrite app_nil_r, !Nat.add_0_r.
  - change (extend host st (n :: ns))
      with (extend host (mkParseState (ps_items st ++ [importedItem host n st])
                                      (S (ps_clock st)) (S (ps_random st))) ns).
    destruct (IH (mkParseState (ps_items st ++ [importedItem host n st])
                               (S (ps_clock st)) (S (ps_random st))))
      as (-> & -> & ->).
    simpl. split_and!; [|lia..].
    rewrite <- app_assoc. f_equal. simpl. rewrite !Nat.add_0_r. f_equal.
    apply imap_ext. intros k node _. simpl.
    by rewrite !Nat.add_succ_r.
Qed.

Lemma url_cons (node : BookmarkNode) (l : list BookmarkNode) :
  filter (λ n, is_url n = true) (node :: l)
  = (if is_url node then [node] else []) ++ filter (λ n, is_url n = true) l.
Proof.
  destruct (is_url node) eqn:Hurl.
  - by rewrite filter_cons_True.
  - rewrite filter_cons_False; [done|]. by rewrite Hurl.
Qed.

Lemma reached_children_sublist (cs : list BookmarkNode) :
  Forall (λ c, reached c `sublist_of` filter (λ n, is_url n = true) (preorder c)) cs →
  flat_map reached cs
  `sublist_of` filter (λ n, is_url n = true) (flat_map preorder cs).
Proof.
  induction 1 as [|c cs Hc _ IH]; simpl; [done|].
  rewrite filter_app. by apply sublist_app.
Qed.

(** What the traversal reaches is part of the url nodes of the tree, in the
    same order. *)
Lemma reached_sublist (node : BookmarkNode) :
  reached node `sublist_of` filter (λ n, is_url n = true) (preorder node).
Proof.
  induction node as [node IH] using BookmarkNode_children_ind.
  destruct node as [ty nm u ch]. simpl in IH.
  change (preorder (mkNode ty nm u ch))
    with (mkNode ty nm u ch
          :: match ch with Some cs => flat_map preorder cs | None => [] end).
  rewrite url_cons.
  change (reached (mkNode ty nm u ch))
    with (if is_url (mkNode ty nm u ch) then [mkNode ty nm u ch]
          else if is_folder (mkNode ty nm u ch)
               then match ch with Some cs => flat_map reached cs | None => [] end
               else []).
  destruct (is_url _).
  - apply sublist_inserts_r. reflexivity.
  - simpl. destruct (is_folder _); [|apply sublist_nil_l].
    destruct ch as [cs|]; [|done]. by apply reached_children_sublist.
Qed.

Lemma reached_from_roots_sublist (data : BookmarksData) :
  reached_from_roots data `sublist_of` url_nodes data.
Proof.
  unfold reached_from_roots, url_nodes, all_nodes.
  induction (default [] (bd_roots data)) as [|root roots IH]; simpl; [done|].
  rewrite filter_app. apply sublist_app; [|done].
  destruct root as [ty nm u ch].
  change (preorder (mkNode ty nm u ch))
    with (mkNode ty nm u ch
          :: match ch with Some cs => flat_map preorder cs | None => [] end).
  rewrite url_cons. apply sublist_inserts_l. simpl.
  destruct ch as [cs|]; simpl; [|done].
  apply reached_children_sublist, Forall_forall. intros c _.
  apply reached_sublist.
Qed.







Lemma import_of_imap (f : nat → BookmarkNode → DockItem) (ns : list BookmarkNode) :
  (∀ k node, import_of node (f k node)) → Forall2 import_of ns (imap f ns).
Proof.
  revert f. induction ns as [|n ns IH]; intros f Hf; [constructor|].
  rewrite imap_cons. constructor; [apply Hf|]. apply IH. intros k node. apply Hf.
Qed.

(** The whole import, in terms of the nodes that the traversal reaches. *)
Lemma importChromeBookmarks_parsed (data : BookmarksData) (p : Provider) :
  let items := ps_items (parseChromeBookmarks host data p) in
  items = imap (λ k node,
                  mkDockItem (chrome_id host (clock_calls p + k) (random_calls p + k))
                             link (node_name node) None None (node_url node)
                             (Some "$(globe)") None None None)
               (reached_from_roots data)
  ∧ dockItems (importChromeBookmarks host (Parsed data) p) = dockItems p ++ items
  ∧ (items = [] →
     importChromeBookmarks host (Parsed data) p
     = show (Information "No bookmarks found to import.") p).
Proof.
  intros items. subst items. simpl.
  rewrite parseChromeBookmarks_reached.
  destruct (extend_items (mkParseState [] (clock_calls p) (random_calls p))
                         (reached_from_roots data)) as (Hitems & Hclock & Hrandom).
  simpl in Hitems, Hclock, Hrandom. rewrite Hitems, Hclock, Hrandom.
  split_and!; [done| |].
  - case_bool_decide as Hlen; [done|].
    rewrite dockItems_show. simpl.
    destruct (imap _ _); [by rewrite app_nil_r|simpl in Hlen; lia].
  - intros Hnil. rewrite Hnil. simpl.
    apply (f_equal length) in Hnil. rewrite length_imap in Hnil.
    rewrite Hnil, !Nat.add_0_r. by destruct p.
Qed.

(** C10. The import only appends.  Whatever the bookmarks file is, the items
    that were in the list stay where they were; for a file that parses, the
    links made of the nodes that the traversal reaches follow them, and
    these nodes are listed in the depth-first order of the tree, a node
    before its children. *)
Theorem importChromeBookmarks_appends_in_preorder (data : BookmarksData)
    (f : BookmarksFile) (p : Provider) :
  let items := ps_items (parseChromeBookmarks host data p) in
  take (length (dockItems p)) (dockItems (importChromeBookmarks host f p))
  = dockItems p
  ∧ dockItems (importChromeBookmarks host (Parsed data) p) = dockItems p ++ items
  ∧ Forall2 import_of (reached_from_roots data) items
  ∧ reached_from_roots data `sublist_of` url_nodes data
  ∧ url_nodes data `sublist_of` all_nodes data.
Proof.
  intros items.
  assert (Happend : ∀ d, dockItems (importChromeBookmarks host (Parsed d) p)
                         = dockItems p ++ ps_items (parseChromeBookmarks host d p)).
  { intros d. apply importChromeBookmarks_parsed. }
  split_and!.
  - destruct f as [|e|d]; [by rewrite firstn_all..|].
    rewrite Happend. by rewrite take_app_length.
  - apply Happend.
  - subst items.
    destruct (importChromeBookmarks_parsed data p) as (-> & _).
    by apply import_of_imap.
  - apply reached_from_roots_sublist.
  - apply sublist_filter.
Qed.


End Bookmarks.


(** ** Ids of new items *)

Lemma occurrences_app (key : string) (l1 l2 : list DockItem) :
  occurrences key (l1 ++ l2) = occurrences key l1 + occurrences key l2.
Proof. unfold occurrences. by rewrite filter_app, length_app. Qed.

Lemma occurrences_zero (key : string) (l : list DockItem) :
  occurrences key l = 0 ↔ key ∉ id <$> l.
Proof.
  unfold occurrences. rewrite length_zero_iff_nil, list_elem_of_fmap. split.
  - intros Hnil (x & -> & Hx).
    assert (x ∈ filter (λ i, id i = id x) l) as Hin
      by (by apply list_elem_of_filter).
    rewrite Hnil in Hin. by apply elem_of_nil in Hin.
  - intros Hno. destruct (filter _ l) as [|y ys] eqn:Hfilter; [done|].
    assert (y ∈ filter (λ i, id i = key) l) as [Hid Hy]%list_elem_of_filter
      by (rewrite Hfilter; left).
    exfalso. apply Hno. by exists y.
Qed.

Lemma occurrences_lookup (l : list DockItem) (k : nat) (item : DockItem) :
  l !! k = Some item → 1 ≤ occurrences (id item) l.
Proof.
  intros Hk. destruct (occurrences (id item) l) eqn:Hocc; [|lia].
  apply occurrences_zero in Hocc. exfalso. apply Hocc.
  apply list_elem_of_fmap. exists item. split; [done|].
  by eapply list_elem_of_lookup_2.
Qed.

(** After a push, the id of the new object occurs once exactly when no
    object of the list carried it. *)
Lemma occurrences_push (l : list DockItem) (newItem : DockItem) :
  occurrences (id newItem) (l ++ [newItem]) = 1 ↔ id newItem ∉ id <$> l.
Proof.
  rewrite occurrences_app, <- occurrences_zero.
  assert (occurrences (id newItem) [newItem] = 1) as ->; [|lia].
  unfold occurrences. by rewrite filter_cons_True.
Qed.

Section Ids.

Variable host : Host.

Lemma showAddItemDialog_describe (c : AddChoice) (a : Answers) (p : Provider) :
  showAddItemDialog host (Some c) a p = commit (describe host c a p).
Proof. by destruct c. Qed.

Lemma describe_id (c : AddChoice) (a : Answers) (p : Provider) (newItem : DockItem) :
  (describe host c a p).1 = Some newItem →
  id newItem = timestamp_id host (type_string (type newItem)) p
  ∧ dockItems (describe host c a p).2 = dockItems p.
Proof.
  unfold describe, createAppItem, createFileItem, createFolderItem,
    createLinkItem, createFolderGroup.
  destruct c; simpl; repeat (case_match; simpl; try done);
    by intros [= <-].
Qed.

Lemma createForFolder_id (c : FolderAddChoice) (a : Answers) (p : Provider)
    (newItem : DockItem) :
  (createForFolder host c a p).1 = Some newItem →
  id newItem = timestamp_id host (type_string (type newItem)) p.
Proof.
  unfold createForFolder, createAppItem, createFileItem, createFolderItem,
    createLinkItem.
  destruct c; simpl; repeat (case_match; simpl; try done);
    by intros [= <-].
Qed.

(** Ids of one variant made at different clock readings differ. *)
Lemma timestamp_id_inj (prefix : string) (p q : Provider) :
  timestamp_id host prefix p = timestamp_id host prefix q →
  Date_now host (clock_calls p) = Date_now host (clock_calls q).
Proof.
  unfold timestamp_id. intros H.
  apply (inj (String.app prefix)) in H.
  apply (inj (String.app "-")) in H.
  by apply (inj pretty) in H.
Qed.

(** C3, as the code has it.  The id of a new item is the name of its variant
    and the clock reading ([chrome], the reading and the random draw for an
    imported link); it is not compared with the ids in place.  Right after
    the insertion it occurs once in its scope exactly when no object of the
    scope carried it before (and, in an import, no other imported link got
    the same one). *)
Theorem new_id_unique_iff_fresh :
  (∀ c a p newItem,
     (describe host c a p).1 = Some newItem →
     dockItems (showAddItemDialog host (Some c) a p) = dockItems p ++ [newItem]
     ∧ id newItem = timestamp_id host (type_string (type newItem)) p
     ∧ (occurrences (id newItem) (dockItems (showAddItemDialog host (Some c) a p)) = 1
        ↔ id newItem ∉ id <$> dockItems p))
  ∧ (∀ folderItem c a p target newItem,
       deref (dockItems p) folderItem = Some target →
       (createForFolder host c a p).1 = Some newItem →
       children <$> deref (dockItems (addItemToFolder host folderItem (Some c) a p))
                          folderItem
       = Some (Some (default [] (children target) ++ [newItem]))
       ∧ id newItem = timestamp_id host (type_string (type newItem)) p
       ∧ (occurrences (id newItem) (default [] (children target) ++ [newItem]) = 1
          ↔ id newItem ∉ id <$> default [] (children target)))
  ∧ (∀ data p k item,
       ps_items (parseChromeBookmarks host data p) !! k = Some item →
       dockItems (importChromeBookmarks host (Parsed data) p)
       = dockItems p ++ ps_items (parseChromeBookmarks host data p)
       ∧ id item = chrome_id host (clock_calls p + k) (random_calls p + k)
       ∧ (occurrences (id item) (dockItems (importChromeBookmarks host (Parsed data) p)) = 1
          ↔ (id item ∉ id <$> dockItems p)
            ∧ occurrences (id item) (ps_items (parseChromeBookmarks host data p)) = 1)).
Proof.
  split_and!.
  - intros c a p newItem Hnew.
    destruct (describe_id c a p newItem Hnew) as [Hid Hsame].
    assert (dockItems (showAddItemDialog host (Some c) a p)
            = dockItems p ++ [newItem]) as Hpush.
    { rewrite showAddItemDialog_describe. unfold commit. rewrite Hnew.
      autorewrite with dock. unfold push. autorewrite with dock.
      by rewrite Hsame. }
    rewrite Hpush. split_and!; [done..|]. apply occurrences_push.
  - intros folderItem c a p target newItem Htarget Hnew.
    rewrite (addItemToFolder_created host folderItem c a p target newItem)
      by done.
    simpl. split_and!.
    + done.
    + by apply createForFolder_id in Hnew.
    + apply occurrences_push.
  - intros data p k item Hk.
    destruct (importChromeBookmarks_parsed host data p) as (Hitems & Happend & _).
    rewrite Happend. split_and!; [done| |].
    + simpl in Hitems. rewrite Hitems, list_lookup_imap in Hk.
      destruct (reached_from_roots data !! k); [|done].
      simpl in Hk. by injection Hk as <-.
    + rewrite occurrences_app, <- occurrences_zero.
      pose proof (occurrences_lookup _ _ _ Hk). lia.
Qed.

End Ids.

(** C3 as the specification words it fails when the clock gives the
    same reading to two additions: the second app item gets the id of the
    first. *)
Lemma addAppItem_repeats_id :
  id <$> dockItems (showAddItemDialog stalled_host (Some ChooseApp) chrome_answers
                      (showAddItemDialog stalled_host (Some ChooseApp) chrome_answers
                         (provider_with getDefaultItems)))
  = ["terminal"; "explorer"; "git"; "extensions";
     "app-1700000000000"; "app-1700000000000"]
  ∧ occurrences "app-1700000000000"
      (dockItems (showAddItemDialog stalled_host (Some ChooseApp) chrome_answers
                    (showAddItemDialog stalled_host (Some ChooseApp) chrome_answers
                       (provider_with getDefaultItems))))
    = 2.
Proof. split; by vm_compute. Qed.

(** * The theorems at sample inputs *)

(** C1 at the Chrome item, whose command prompt is answered with the empty
    string. *)
Lemma editItem_writes_defined_answers_witness :
  deref (dockItems (provider_with [chrome_app])) (TopLevel 0) = Some chrome_app
  ∧ newName clear_command = Some "Chrome"
  ∧ newTitle clear_command = Some "Chrome"
  ∧ ∃ it',
      deref (dockItems (editItem (TopLevel 0) clear_command
                                 (provider_with [chrome_app]))) (TopLevel 0)
      = Some it'
      ∧ (type chrome_app = app →
           command it' = match newCommand clear_command with
                         | Some c => Some c
                         | None => command chrome_app
                         end
           ∧ icon it' = match newIcon clear_command with
                        | Some i => Some i
                        | None => icon chrome_app
                        end).
Proof.
  split_and!; [reflexivity..|].
  destruct (editItem_writes_defined_answers (TopLevel 0) clear_command
              (provider_with [chrome_app]) chrome_app "Chrome" "Chrome"
              eq_refl eq_refl eq_refl) as (it' & Hit' & Happ & _).
  exists it'. split; [exact Hit'|exact Happ].
Defined.

(** C2 at a folder group without children that receives a link. *)
Lemma addItemToFolder_appends_to_any_target_witness :
  deref (dockItems (provider_with [work_group])) (TopLevel 0) = Some work_group
  ∧ dockItems (addItemToFolder sample_host (TopLevel 0) None docs_answers
                               (provider_with [work_group]))
    = [work_group]
  ∧ (createForFolder sample_host IntoLink docs_answers
                     (provider_with [work_group])).1
    = Some (mkDockItem "link-5" link "Docs" (Some "Docs") None
                       (Some "https://x.test") (Some "$(globe)") None None None)
  ∧ children <$>
      deref (dockItems (addItemToFolder sample_host (TopLevel 0) (Some IntoLink)
                                        docs_answers (provider_with [work_group])))
            (TopLevel 0)
    = Some (Some [mkDockItem "link-5" link "Docs" (Some "Docs") None
                             (Some "https://x.test") (Some "$(globe)") None
                             None None]).
Proof.
  destruct (addItemToFolder_appends_to_any_target sample_host (TopLevel 0)
              IntoLink docs_answers (provider_with [work_group]) work_group
              eq_refl) as (Hcreated & _ & Hnone).
  split_and!; [reflexivity|by rewrite Hnone|reflexivity|].
  destruct (Hcreated _ eq_refl) as (Hderef & Hchildren & _).
  rewrite Hderef. exact (f_equal Some Hchildren).
Defined.

(** C3 at a clock that advances: an app item on the default list, a link in
    a folder group, and the second link of an import. *)
Lemma new_id_unique_iff_fresh_witness :
  (describe sample_host ChooseApp chrome_answers (provider_with getDefaultItems)).1
  = Some (mkDockItem "app-5" app "Chrome" (Some "Chrome") None None
                     (Some "$(chrome)") None None (Some "chrome.open"))
  ∧ ("app-5" ∉ id <$> dockItems (provider_with getDefaultItems))
  ∧ occurrences "app-5"
      (dockItems (showAddItemDialog sample_host (Some ChooseApp) chrome_answers
                                    (provider_with getDefaultItems)))
    = 1
  ∧ deref (dockItems (provider_with [reading_group])) (TopLevel 0)
    = Some reading_group
  ∧ (createForFolder sample_host IntoLink docs_answers
                     (provider_with [reading_group])).1
    = Some (mkDockItem "link-5" link "Docs" (Some "Docs") None
                       (Some "https://x.test") (Some "$(globe)") None None None)
  ∧ occurrences "link-5"
      (default [] (children reading_group)
       ++ [mkDockItem "link-5" link "Docs" (Some "Docs") None
                      (Some "https://x.test") (Some "$(globe)") None None None])
    = 1
  ∧ id <$> ps_items (parseChromeBookmarks sample_host sample_bookmarks
                                          (provider_with getDefaultItems)) !! 1
    = Some (chrome_id sample_host 1 1).
Proof.
  destruct (new_id_unique_iff_fresh sample_host) as (Htop & Hfolder & Himport).
  assert ("app-5" ∉ id <$> dockItems (provider_with getDefaultItems)) as Hfresh.
  { apply (bool_decide_unpack _). by vm_compute. }
  split_and!; [reflexivity|exact Hfresh| |reflexivity|reflexivity| |].
  - destruct (Htop ChooseApp chrome_answers (provider_with getDefaultItems) _
                   eq_refl) as (_ & _ & Hiff).
    apply Hiff. exact Hfresh.
  - destruct (Hfolder (TopLevel 0) IntoLink docs_answers
                      (provider_with [reading_group]) reading_group _
                      eq_refl eq_refl) as (_ & _ & Hiff).
    apply Hiff. apply (bool_decide_unpack _). by vm_compute.
  - destruct (ps_items (parseChromeBookmarks sample_host sample_bookmarks
                          (provider_with getDefaultItems)) !! 1)
      as [item|] eqn:Hitem; [|by vm_compute in Hitem].
    destruct (Himport sample_bookmarks (provider_with getDefaultItems) 1 item
                      Hitem) as (_ & Hid & _).
    simpl. by rewrite Hid.
Defined.

(** C4 at a list of three objects with three ids. *)
Lemma moveItem_down_up_restores_witness :
  findIndex (has_id (id chrome_app))
            (dockItems (provider_with [docs_link; chrome_app; work_group]))
  = Some 1
  ∧ dockItems (provider_with [docs_link; chrome_app; work_group]) !! 2
    = Some work_group
  ∧ id work_group ≠ id chrome_app
  ∧ dockItems (moveItem chrome_app (-1)
                 (moveItem chrome_app 1
                    (provider_with [docs_link; chrome_app; work_group])))
    = [docs_link; chrome_app; work_group].
Proof.
  split_and!; [reflexivity|reflexivity|discriminate|].
  apply (moveItem_down_up_restores chrome_app
           (provider_with [docs_link; chrome_app; work_group]) 1 work_group);
    [reflexivity|reflexivity|discriminate].
Defined.

(** C5 at the first and the last object of a list and at the first child
    of a folder group, all with distinct ids. *)
Lemma move_out_of_bounds_is_void_witness :
  findIndex (has_id (id docs_link)) (dockItems (provider_with [docs_link; chrome_app]))
  = Some 0
  ∧ NoDup (id <$> [docs_link; chrome_app])
  ∧ moveItem docs_link (-1) (provider_with [docs_link; chrome_app])
    = show (Information "Cannot move item in that direction.")
           (provider_with [docs_link; chrome_app])
  ∧ moveItem chrome_app 1 (provider_with [docs_link; chrome_app])
    = show (Information "Cannot move item in that direction.")
           (provider_with [docs_link; chrome_app])
  ∧ moveItemInFolder docs_link (TopLevel 0) (-1) (provider_with [reading_group])
    = show (Information "Cannot move item in that direction within the folder.")
           (provider_with [reading_group]).
Proof.
  assert (Hnodup : NoDup (id <$> [docs_link; chrome_app])).
  { apply (bool_decide_unpack _). by vm_compute. }
  assert (Hkids : NoDup (id <$> default [] (children reading_group))).
  { apply (bool_decide_unpack _). by vm_compute. }
  split_and!; [reflexivity|exact Hnodup| | |].
  - apply (proj1 (move_out_of_bounds_is_void docs_link (-1)
                    (provider_with [docs_link; chrome_app])) 0);
      [reflexivity|simpl; lia].
  - destruct (move_out_of_bounds_is_void chrome_app 1
                (provider_with [docs_link; chrome_app]))
      as (_ & _ & Hitem & _ & Hfirst).
    apply (Hitem 1); [|simpl; lia].
    apply Hfirst; [exact Hnodup|reflexivity].
  - destruct (move_out_of_bounds_is_void docs_link (-1)
                (provider_with [reading_group]))
      as (_ & _ & _ & Hchild & Hfirst).
    apply (Hchild (TopLevel 0) reading_group
                  (default [] (children reading_group)) 0);
      [reflexivity|reflexivity| |simpl; lia].
    apply Hfirst; [exact Hkids|reflexivity].
Defined.

(** C6 at five items with [maxItems] set to two. *)
Lemma createDockItems_renders_prefix_witness :
  (0 ≤ 2)%Z
  ∧ get_maxItems (configuration five_items_max_two) = 2%Z
  ∧ length (dockItems five_items_max_two) = 5
  ∧ length (statusBarItems (createDockItems five_items_max_two)) = 3
  ∧ sb_text <$> statusBarItems (createDockItems five_items_max_two)
    = ["$(terminal) Terminal"; "$(files) Explorer"; "$(plus)"].
Proof.
  split_and!; [lia|reflexivity|reflexivity| |reflexivity].
  destruct (createDockItems_renders_prefix five_items_max_two 2
              ltac:(lia) eq_refl) as (_ & _ & _ & _ & Hthree).
  exact (Hthree eq_refl eq_refl).
Defined.


(** * Further properties of the item store *)

(** ** Reordering keeps the items *)

Lemma insert_Permutation {A} (l : list A) (i : nat) (x y : A) :
  l !! i = Some x → <[i:=y]> l ≡ₚ y :: delete i l.
Proof.
  intros Hi. pose proof (lookup_lt_Some _ _ _ Hi) as Hlt.
  rewrite insert_take_drop, delete_take_drop by done.
  by rewrite Permutation_middle.
Qed.

Lemma swap_Permutation {A} (l : list A) (i j : nat) : swap l i j ≡ₚ l.
Proof.
  unfold swap.
  destruct (l !! i) as [x|] eqn:Hi; [|done].
  destruct (l !! j) as [y|] eqn:Hj; [|done].
  destruct (decide (i = j)) as [->|Hne].
  { rewrite list_insert_insert_eq, list_insert_id; [done|congruence]. }
  assert (<[i:=y]> l !! j = Some y) as Hj'
    by (by rewrite list_lookup_insert_ne).
  etrans; [apply (insert_Permutation _ j y x Hj')|].
  etrans; [|symmetry; apply (delete_Permutation l i x Hi)].
  apply Permutation_skip.
  apply (Permutation_cons_inv (a := y)).
  etrans; [symmetry; apply (delete_Permutation _ j y Hj')|].
  by apply (insert_Permutation l i x y).
Qed.

(** X1. Whatever the item and whatever integer the direction is,
    [moveItem] leaves a rearrangement of the list it found: no object is
    lost, added or copied. *)
Theorem moveItem_permutes (item : DockItem) (direction : Z) (p : Provider) :
  dockItems (moveItem item direction p) ≡ₚ dockItems p.
Proof.
  unfold moveItem.
  destruct (findIndex _ _) as [index|]; [|done].
  destruct (_ || _); [done|].
  autorewrite with dock. apply swap_Permutation.
Qed.

(** X2. When the id is found at [index] and [index + direction] is inside
    the list, the two objects at these positions trade places and every
    other position keeps its object; the move is saved and reported with
    the word down for a positive direction, up otherwise. *)
Theorem moveItem_trades_places (item : DockItem) (direction : Z)
    (p : Provider) (index : nat) :
  findIndex (has_id (id item)) (dockItems p) = Some index →
  (0 ≤ Z.of_nat index + direction < Z.of_nat (length (dockItems p)))%Z →
  let target := Z.to_nat (Z.of_nat index + direction) in
  let after := moveItem item direction p in
  dockItems after !! target = dockItems p !! index
  ∧ dockItems after !! index = dockItems p !! target
  ∧ (∀ k, k ≠ index → k ≠ target → dockItems after !! k = dockItems p !! k)
  ∧ cfg_items (configuration after) = Some (dockItems after)
  ∧ messages after
    = messages p
      ++ [Information ("Moved " +:+ quoted (name item) +:+ " "
                       +:+ (if (0 <? direction)%Z then "down" else "up")
                       +:+ " successfully.")].
Proof.
  intros Hfind Hin target after.
  assert (dockItems after = swap (dockItems p) index target) as Hswap
    by (by apply moveItem_in_bounds).
  assert (cfg_items (configuration after) = Some (dockItems after)
          ∧ messages after
            = messages p
              ++ [Information ("Moved " +:+ quoted (name item) +:+ " "
                               +:+ (if (0 <? direction)%Z then "down" else "up")
                               +:+ " successfully.")]) as [Hsaved Hmsg].
  { subst after. unfold moveItem. rewrite Hfind.
    destruct (Z.ltb_spec (Z.of_nat index + direction) 0) as [?|?]; [lia|].
    destruct (Z.leb_spec (Z.of_nat (length (dockItems p)))
                         (Z.of_nat index + direction)) as [?|?]; [lia|].
    done. }
  rewrite Hswap. split_and!; [| | |by rewrite <- Hswap|done].
  - destruct (decide (index = target)) as [Heq|Hne].
    + rewrite <- Heq. unfold swap.
      destruct (dockItems p !! index) as [x|] eqn:Hx; [|done].
      by rewrite list_insert_insert_eq, list_insert_id.
    + destruct (lookup_lt_is_Some_2 (dockItems p) index) as [x Hx];
        [apply findIndex_Some in Hfind as [(x & Hx & _) _];
         by eapply lookup_lt_Some|].
      destruct (lookup_lt_is_Some_2 (dockItems p) target) as [y Hy];
        [subst target; lia|].
      destruct (swap_lookup _ _ _ x y Hne Hx Hy) as (_ & -> & _). done.
  - destruct (decide (index = target)) as [Heq|Hne].
    + rewrite <- Heq. unfold swap.
      destruct (dockItems p !! index) as [x|] eqn:Hx; [|done].
      by rewrite list_insert_insert_eq, list_insert_id.
    + destruct (lookup_lt_is_Some_2 (dockItems p) index) as [x Hx];
        [apply findIndex_Some in Hfind as [(x & Hx & _) _];
         by eapply lookup_lt_Some|].
      destruct (lookup_lt_is_Some_2 (dockItems p) target) as [y Hy];
        [subst target; lia|].
      destruct (swap_lookup _ _ _ x y Hne Hx Hy) as (-> & _ & _). done.
  - intros k Hki Hkt. unfold swap.
    destruct (dockItems p !! index), (dockItems p !! target); try done.
    by rewrite !list_lookup_insert_ne.
Qed.

(** X3. When the first object that carries the id of the item is not at
    the head of the list, moving up and then down restores the list: after
    the move up the id is first found on the object that moved, whether or
    not objects further down carry the same id. *)
Theorem moveItem_up_down_restores (item : DockItem) (p : Provider) (i : nat) :
  findIndex (has_id (id item)) (dockItems p) = Some (S i) →
  dockItems (moveItem item 1 (moveItem item (-1) p)) = dockItems p.
Proof.
  intros Hfind.
  pose proof Hfind as [(x & Hx & Hfx) Hbefore]%findIndex_Some.
  pose proof (lookup_lt_Some _ _ _ Hx) as Hlen.
  destruct (lookup_lt_is_Some_2 (dockItems p) i) as [y Hy]; [lia|].
  assert (Hup : dockItems (moveItem item (-1) p) = swap (dockItems p) (S i) i).
  { rewrite (moveItem_in_bounds item (-1) p (S i)) by (done || lia).
    f_equal. lia. }
  destruct (swap_lookup (dockItems p) (S i) i x y ltac:(lia) Hx Hy)
    as (_ & Hi' & Hother).
  assert (Hfind' : findIndex (has_id (id item)) (dockItems (moveItem item (-1) p))
                   = Some i).
  { rewrite Hup. apply findIndex_Some. split; [by exists x|].
    intros j z Hj Hz. rewrite Hother in Hz by lia.
    apply (Hbefore j z); [lia|done]. }
  rewrite (moveItem_in_bounds item 1 _ i) by
    (done || rewrite Hup, length_swap; lia).
  rewrite Hup. replace (Z.to_nat (Z.of_nat i + 1)) with (S i) by lia.
  by apply (swap_swap _ _ _ x y); [lia|..].
Qed.

(** ** Removing *)

Lemma findIndex_None {A} (f : A → bool) (l : list A) :
  findIndex f l = None ↔ Forall (λ x, f x = false) l.
Proof.
  induction l as [|a l IH]; simpl; [by split|].
  rewrite Forall_cons. destruct (f a) eqn:Hfa.
  - split; [done|]. by intros [? _].
  - destruct (findIndex f l); simpl.
    + split; [done|]. intros [_ H]. by apply IH in H.
    + split; [|done]. intros _. split; [done|]. by apply IH.
Qed.

Lemma findIndex_app {A} (f : A → bool) (l k : list A) :
  findIndex f (l ++ k)
  = match findIndex f l with
    | Some i => Some i
    | None => (λ i, length l + i) <$> findIndex f k
    end.
Proof.
  induction l as [|a l IH]; simpl.
  - by destruct (findIndex f k).
  - destruct (f a); [done|]. rewrite IH.
    destruct (findIndex f l); [done|]. by destruct (findIndex f k).
Qed.

Lemma findIndex_id_None (key : string) (l : list DockItem) :
  findIndex (has_id key) l = None ↔ key ∉ id <$> l.
Proof.
  rewrite findIndex_None, Forall_forall, list_elem_of_fmap. unfold has_id. split.
  - intros Hall (x & -> & Hx). specialize (Hall x Hx).
    by apply bool_decide_eq_false_1 in Hall.
  - intros Hno x Hx. apply bool_decide_eq_false_2. intros Hid.
    apply Hno. by exists x.
Qed.

Lemma NoDup_delete_lookup {A} (l : list A) (i : nat) (x : A) :
  NoDup l → l !! i = Some x → x ∉ delete i l.
Proof.
  intros Hnodup Hi. rewrite (delete_Permutation l i x Hi) in Hnodup.
  by apply NoDup_cons in Hnodup as [? _].
Qed.

Lemma removeTopLevel_found (message : string) (item : DockItem) (p : Provider)
    (i : nat) :
  findIndex (has_id (id item)) (dockItems p) = Some i →
  removeTopLevel message item (Some "Yes") p
  = show (Information message)
         (createDockItems
            (saveConfiguration (set_dockItems (delete i (dockItems p)) p))).
Proof.
  intros Hfind. unfold removeTopLevel.
  by rewrite bool_decide_eq_true_2, Hfind.
Qed.

Lemma removeTopLevel_void (message : string) (item : DockItem)
    (result : option string) (p : Provider) :
  result ≠ Some "Yes" ∨ findIndex (has_id (id item)) (dockItems p) = None →
  removeTopLevel message item result p = p.
Proof.
  intros Hvoid. unfold removeTopLevel. case_bool_decide; [|done].
  destruct Hvoid as [?|Hnone]; [done|]. by rewrite Hnone.
Qed.

(** X4. Confirmed with Yes, [deleteItem], [removeItem] and
    [removeFolderGroup] take out the first object that carries the id of
    the item, with its children, and nothing else: the objects before it
    keep their positions, those after it move up by one, and each of the
    three saves the shorter list.  When the ids of the list are distinct
    the id is gone from it. *)
Theorem removal_takes_first_occurrence (item : DockItem) (p : Provider)
    (i : nat) :
  findIndex (has_id (id item)) (dockItems p) = Some i →
  let rest := delete i (dockItems p) in
  dockItems (deleteItem item (Some "Yes") p) = rest
  ∧ dockItems (removeItem item (Some "Yes") p) = rest
  ∧ dockItems (removeFolderGroup item (Some "Yes") p) = rest
  ∧ cfg_items (configuration (deleteItem item (Some "Yes") p)) = Some rest
  ∧ cfg_items (configuration (removeItem item (Some "Yes") p)) = Some rest
  ∧ cfg_items (configuration (removeFolderGroup item (Some "Yes") p))
    = Some rest
  ∧ length rest + 1 = length (dockItems p)
  ∧ (∀ k, k < i → rest !! k = dockItems p !! k)
  ∧ (∀ k, i ≤ k → rest !! k = dockItems p !! S k)
  ∧ (NoDup (id <$> dockItems p) → id item ∉ id <$> rest).
Proof.
  intros Hfind rest.
  pose proof Hfind as [(x & Hx & Hfx) _]%findIndex_Some.
  pose proof (lookup_lt_Some _ _ _ Hx) as Hlt.
  unfold deleteItem, removeItem, removeFolderGroup.
  rewrite !(removeTopLevel_found _ item p i Hfind).
  split_and!; try done.
  - subst rest. rewrite length_delete by done. lia.
  - intros k Hk. by apply list_lookup_delete_lt.
  - intros k Hk. by apply list_lookup_delete_ge.
  - intros Hnodup. subst rest. rewrite list_fmap_delete.
    unfold has_id in Hfx. apply bool_decide_eq_true_1 in Hfx. rewrite <- Hfx.
    apply NoDup_delete_lookup; [done|].
    by rewrite list_lookup_fmap, Hx.
Qed.

(** X5. The three removals do nothing at all, not even a message, when the
    warning is answered with anything but Yes or when no object of the
    list carries the id. *)
Theorem removal_void (item : DockItem) (result : option string) (p : Provider) :
  result ≠ Some "Yes" ∨ id item ∉ id <$> dockItems p →
  deleteItem item result p = p
  ∧ removeItem item result p = p
  ∧ removeFolderGroup item result p = p.
Proof.
  intros Hvoid. unfold deleteItem, removeItem, removeFolderGroup.
  rewrite <- findIndex_id_None in Hvoid.
  by rewrite !removeTopLevel_void.
Qed.

(** ** Adding and removing compose *)

Section AddRemove.

Variable host : Host.

Lemma showAddItemDialog_pushes (c : AddChoice) (a : Answers) (p : Provider)
    (newItem : DockItem) :
  (describe host c a p).1 = Some newItem →
  dockItems (showAddItemDialog host (Some c) a p) = dockItems p ++ [newItem].
Proof.
  intros Hnew. destruct (describe_id host c a p newItem Hnew) as [_ Hsame].
  rewrite showAddItemDialog_describe. unfold commit. rewrite Hnew.
  autorewrite with dock. unfold push. autorewrite with dock.
  by rewrite Hsame.
Qed.

(** X6. Deleting an item right after it was added restores the list when
    its id was new to the list.  When an older object already carried that
    id, it is this older object that goes, and the new item stays last. *)
Theorem add_then_delete (c : AddChoice) (a : Answers) (p : Provider)
    (newItem : DockItem) :
  (describe host c a p).1 = Some newItem →
  let added := showAddItemDialog host (Some c) a p in
  (id newItem ∉ id <$> dockItems p →
     dockItems (deleteItem newItem (Some "Yes") added) = dockItems p)
  ∧ (∀ i, findIndex (has_id (id newItem)) (dockItems p) = Some i →
       dockItems (deleteItem newItem (Some "Yes") added)
       = delete i (dockItems p) ++ [newItem]).
Proof.
  intros Hnew added.
  pose proof (showAddItemDialog_pushes c a p newItem Hnew) as Hpush.
  fold added in Hpush. unfold deleteItem. split.
  - intros Hfresh%findIndex_id_None.
    rewrite (removeTopLevel_found _ newItem added (length (dockItems p))).
    + autorewrite with dock. rewrite Hpush.
      rewrite (delete_middle (dockItems p) [] newItem). apply app_nil_r.
    + rewrite Hpush, findIndex_app, Hfresh. simpl. unfold has_id.
      rewrite bool_decide_eq_true_2 by done. simpl. f_equal. lia.
  - intros i Hi.
    rewrite (removeTopLevel_found _ newItem added i).
    + autorewrite with dock. rewrite Hpush.
      apply findIndex_Some in Hi as [(x & Hx & _) _].
      pose proof (lookup_lt_Some _ _ _ Hx).
      rewrite !delete_take_drop, take_app_le, drop_app_le by lia.
      by rewrite app_assoc.
    + by rewrite Hpush, findIndex_app, Hi.
Qed.

End AddRemove.

(** ** Operations on one object leave the top level alone *)

(** Replacing an object by one with the same id and type keeps the ids and
    types of the list. *)
Lemma insert_same_shape (l : list DockItem) (i : nat) (x y : DockItem) :
  l !! i = Some x → id y = id x → type y = type x →
  (λ it, (id it, type it)) <$> <[i:=y]> l = (λ it, (id it, type it)) <$> l.
Proof.
  intros Hx Hid Hty. rewrite list_fmap_insert. apply list_insert_id.
  by rewrite list_lookup_fmap, Hx, Hid, Hty.
Qed.

Lemma assign_same_shape (l : list DockItem) (r : ItemRef) (it it' : DockItem) :
  deref l r = Some it → id it' = id it → type it' = type it →
  (λ it, (id it, type it)) <$> assign l r it' = (λ it, (id it, type it)) <$> l.
Proof.
  destruct r as [i|i j]; simpl.
  - intros. by eapply insert_same_shape.
  - destruct (l !! i) as [f|] eqn:Hf; [|done].
    destruct (children f) as [cs|]; [|done].
    intros _ _ _. by eapply insert_same_shape.
Qed.

Section Frame.

Variable host : Host.

(** X7. Editing an item, adding an item into a folder, recoloring a folder,
    and moving or removing a child never change how many top-level items
    there are, their order, their ids or their types, whatever the answers
    given. *)
Theorem object_operations_keep_top_level (r : ItemRef) (item : DockItem)
    (p : Provider) :
  let shape := λ q : Provider, (λ it, (id it, type it)) <$> dockItems q in
  (∀ a, shape (editItem r a p) = shape p)
  ∧ (∀ c a, shape (addItemToFolder host r c a p) = shape p)
  ∧ (∀ c, shape (changeFolderColor r c p) = shape p)
  ∧ (∀ d, shape (moveItemInFolder item r d p) = shape p)
  ∧ (∀ result, shape (removeItemFromFolder item r result p) = shape p).
Proof.
  intros shape. subst shape. simpl. split_and!.
  - intros a. unfold editItem.
    destruct (deref (dockItems p) r) as [it|] eqn:Hit; [|done].
    destruct (editFields a it) as [it'|] eqn:Hedit; [|done].
    autorewrite with dock.
    unfold editFields in Hedit.
    destruct (newName a) as [n|] eqn:Hn; [|done].
    destruct (newTitle a) as [t|] eqn:Ht; [|done].
    destruct (editFields_spec a it n t Hn Ht)
      as (it2 & Hedit2 & Hid & Hty & _).
    unfold editFields in Hedit2. rewrite Hn, Ht in Hedit2.
    rewrite Hedit in Hedit2. injection Hedit2 as <-.
    by eapply assign_same_shape.
  - intros c a. unfold addItemToFolder.
    destruct (deref (dockItems p) r) as [target|] eqn:Htarget; [|done].
    destruct c as [c|]; [|done].
    pose proof (createForFolder_dockItems host c a p) as Hsame.
    destruct (createForFolder host c a p) as [[newItem|] p1]; simpl in *.
    + autorewrite with dock. rewrite Hsame. by eapply assign_same_shape.
    + by rewrite Hsame.
  - intros c. unfold changeFolderColor.
    destruct (deref (dockItems p) r) as [f|] eqn:Hf; [|done].
    destruct c as [c|]; [|done].
    autorewrite with dock. by eapply assign_same_shape.
  - intros d. unfold moveItemInFolder.
    destruct (deref (dockItems p) r) as [f|] eqn:Hf; [|done].
    destruct (children f) as [cs|]; [|done].
    destruct (moveChild item d (name f) cs) as [[[cs' m] [|]]|]; [|done..].
    autorewrite with dock. by eapply assign_same_shape.
  - intros result. unfold removeItemFromFolder.
    case_bool_decide; [|done].
    destruct (deref (dockItems p) r) as [f|] eqn:Hf; [|done].
    destruct (children f) as [cs|]; [|done].
    destruct (findIndex _ cs); [|done].
    autorewrite with dock. by eapply assign_same_shape.
Qed.

End Frame.

(** ** Children of a folder *)

(** X8. Confirmed with Yes, [removeItemFromFolder] takes the first child
    that carries the id of the item out of the children of the folder,
    keeps the other children in order and saves; without such a child, or
    for a folder without a list of children, the provider is left as it
    is. *)
Theorem removeItemFromFolder_takes_first_child (item : DockItem)
    (folder : ItemRef) (p : Provider) (f : DockItem) :
  deref (dockItems p) folder = Some f →
  (∀ cs j,
     children f = Some cs → findIndex (has_id (id item)) cs = Some j →
     let after := removeItemFromFolder item folder (Some "Yes") p in
     children <$> deref (dockItems after) folder = Some (Some (delete j cs))
     ∧ cfg_items (configuration after) = Some (dockItems after)
     ∧ length (dockItems after) = length (dockItems p))
  ∧ ((∀ cs, children f = Some cs → id item ∉ id <$> cs) →
     removeItemFromFolder item folder (Some "Yes") p = p).
Proof.
  intros Hf. split.
  - intros cs j Hcs Hj after. subst after. unfold removeItemFromFolder.
    rewrite bool_decide_eq_true_2, Hf, Hcs, Hj by done.
    autorewrite with dock. split_and!.
    + by rewrite (deref_assign _ _ f).
    + done.
    + apply length_assign.
  - intros Hnone. unfold removeItemFromFolder.
    rewrite bool_decide_eq_true_2, Hf by done.
    destruct (children f) as [cs|]; [|done].
    specialize (Hnone cs eq_refl). apply findIndex_id_None in Hnone.
    by rewrite Hnone.
Qed.

(** ** Colors of the pickers *)

(** X9. Every entry of the color pickers other than Default carries a code
    that both tables know: its glyph is not the fallback glyph, the name the
    tooltip prints is the very word of the entry's label, and different
    entries have different codes, glyphs and names.  Default carries the
    empty value, which stores no color. *)
Theorem picker_colors_are_known (c c' : ColorPick) :
  (c ≠ PickDefault →
     ∃ glyph cname,
       getColorIcon (pick_value c) = JsString glyph
       ∧ getColorName (pick_value c) = JsString cname
       ∧ pick_label c = "$(circle-filled) " +:+ cname
       ∧ glyph ≠ "⚪" ∧ cname ≠ "Custom")
  ∧ (c ≠ c' →
       pick_value c ≠ pick_value c'
       ∧ getColorIcon (pick_value c) ≠ getColorIcon (pick_value c')
       ∧ getColorName (pick_value c) ≠ getColorName (pick_value c'))
  ∧ picked_color (Some PickDefault) = None
  ∧ (c ≠ PickDefault → picked_color (Some c) = Some (pick_value c)).
Proof.
  split_and!.
  - intros Hc. destruct c; try done;
      eexists _, _; split_and!; by vm_compute.
  - intros Hne.
    destruct c, c'; try done; split_and!; by vm_compute.
  - done.
  - intros Hc. by destruct c.
Qed.

(** X10. [changeFolderColor] with a picked entry stores the code of the
    entry in the object, or removes the color for Default, touches no other
    field of it, and saves; the tooltip of the object then is its title (or
    name) followed, for a color, by the color's name in parentheses.  A
    dismissed pick changes nothing. *)
Theorem changeFolderColor_sets_color (folderItem : ItemRef) (c : ColorPick)
    (p : Provider) (f : DockItem) :
  deref (dockItems p) folderItem = Some f →
  let after := changeFolderColor folderItem (Some c) p in
  let f' := set_color (if bool_decide (c = PickDefault) then None
                       else Some (pick_value c)) f in
  deref (dockItems after) folderItem = Some f'
  ∧ cfg_items (configuration after) = Some (dockItems after)
  ∧ (∀ showIcons showTitles index,
       sb_tooltip (renderItem showIcons showTitles index f')
       = or_else (title f) (name f)
         +:+ (if bool_decide (c = PickDefault) then ""
              else " (" +:+ js_to_string (getColorName (pick_value c)) +:+ ")"))
  ∧ changeFolderColor folderItem None p = p.
Proof.
  intros Hf after f'. split_and!.
  - subst after. unfold changeFolderColor. rewrite Hf.
    autorewrite with dock. rewrite (deref_assign _ _ f) by done.
    f_equal. subst f'. by destruct c.
  - subst after. unfold changeFolderColor. by rewrite Hf.
  - intros showIcons showTitles index. subst f'. by destruct c.
  - unfold changeFolderColor. by destruct (deref (dockItems p) folderItem).
Qed.

(** ** Start-up *)

(** X11. [initialize] takes the stored list as it is and writes nothing
    when the list has an item; a missing or empty stored list is replaced
    by the four default items, which are saved.  Either way the list it
    leaves is not empty, whatever the provider held before, and the status
    bar is built from it. *)
Theorem initialize_loads_or_seeds (p : Provider) :
  let stored := default [] (cfg_items (configuration p)) in
  (stored ≠ [] →
     dockItems (initialize p) = stored
     ∧ configuration (initialize p) = configuration p)
  ∧ (stored = [] →
     dockItems (initialize p) = getDefaultItems
     ∧ cfg_items (configuration (initialize p)) = Some getDefaultItems)
  ∧ dockItems (initialize p) ≠ []
  ∧ cfg_items (configuration (initialize p)) = Some (dockItems (initialize p))
  ∧ statusBarItems (initialize p)
    = statusBarItems (createDockItems (initialize p)).
Proof.
  intros stored. unfold initialize, loadConfiguration. autorewrite with dock.
  subst stored.
  destruct (cfg_items (configuration p)) as [[|x l]|] eqn:Hcfg; simpl;
    split_and!; try done.
Qed.

(** X12. What was saved is what the next start finds: a provider that
    starts with the settings that [saveConfiguration] wrote gets the list
    that was saved, unless that list was empty, in which case it gets the
    default items again. *)
Theorem restart_restores_saved_list (p q : Provider) :
  configuration q = configuration (saveConfiguration p) →
  dockItems (initialize q)
  = (if bool_decide (dockItems p = []) then getDefaultItems else dockItems p).
Proof.
  intros Hcfg. unfold initialize, loadConfiguration. autorewrite with dock.
  rewrite Hcfg. simpl.
  destruct (dockItems p) as [|x l]; by simpl.
Qed.

(** ** Importing twice *)

Section ImportAgain.

Variable host : Host.

(** X13. The import does not look at what the list holds: importing the
    same file a second time appends a second link for every url node that
    the traversal reaches, after the links of the first import. *)
Theorem import_twice_duplicates (data : BookmarksData) (p : Provider) :
  let once := importChromeBookmarks host (Parsed data) p in
  let twice := importChromeBookmarks host (Parsed data) once in
  ∃ first second,
    dockItems once = dockItems p ++ first
    ∧ dockItems twice = dockItems p ++ first ++ second
    ∧ Forall2 import_of (reached_from_roots data) first
    ∧ Forall2 import_of (reached_from_roots data) second
    ∧ length (dockItems twice)
      = length (dockItems p) + 2 * length (reached_from_roots data).
Proof.
  intros once twice.
  destruct (importChromeBookmarks_parsed host data p) as (Hfirst & Honce & _).
  destruct (importChromeBookmarks_parsed host data once)
    as (Hsecond & Htwice & _).
  fold once in Honce. fold twice in Htwice.
  exists (ps_items (parseChromeBookmarks host data p)),
         (ps_items (parseChromeBookmarks host data once)).
  split_and!.
  - done.
  - by rewrite Htwice, Honce, app_assoc.
  - simpl in Hfirst. rewrite Hfirst. by apply import_of_imap.
  - simpl in Hsecond. rewrite Hsecond. by apply import_of_imap.
  - rewrite Htwice, Honce, !length_app. simpl in Hfirst, Hsecond.
    rewrite Hfirst, Hsecond, !length_imap. lia.
Qed.

End ImportAgain.

(** ** Generated ids *)

(** The decimal text of a number does not start with the letter g. *)
Lemma pretty_N_go_ne_g (x : N) (s s' : string) :
  s ≠ String (Ascii.Ascii true true true false false true true false) s' → pretty_N_go x s ≠ String (Ascii.Ascii true true true false false true true false) s'.
Proof.
  revert s. induction (N.lt_wf_0 x) as [x _ IH]; intros s Hs.
  assert (x = 0 ∨ 0 < x)%N as [->|Hpos] by lia.
  - by rewrite pretty_N_go_0.
  - rewrite pretty_N_go_step by done. apply IH.
    { by apply N.div_lt. }
    unfold pretty_N_char. by repeat case_match.
Qed.

Lemma pretty_N_ne_g (x : N) (s : string) : pretty x ≠ String (Ascii.Ascii true true true false false true true false) s.
Proof.
  unfold pretty, pretty_N. case_decide; [done|].
  by apply pretty_N_go_ne_g.
Qed.

Section GeneratedIds.

Variable host : Host.

(** X14. Two ids made for top-level items or children are equal exactly
    when they are of the same variant and were made at the same clock
    reading: ids of different variants never meet, and within one variant
    only a repeated reading repeats an id. *)
Theorem timestamp_ids_equal_iff (t1 t2 : ItemType) (p q : Provider) :
  timestamp_id host (type_string t1) p = timestamp_id host (type_string t2) q
  ↔ t1 = t2 ∧ Date_now host (clock_calls p) = Date_now host (clock_calls q).
Proof.
  split.
  - intros Heq. destruct (decide (t1 = t2)) as [->|Hne].
    { split; [done|]. by eapply timestamp_id_inj. }
    exfalso. unfold timestamp_id in Heq.
    destruct t1, t2; simpl in Heq; try done; try discriminate Heq;
      injection Heq as Heq.
    + by apply pretty_N_ne_g in Heq.
    + symmetry in Heq. by apply pretty_N_ne_g in Heq.
  - intros [-> Hnow]. unfold timestamp_id. by rewrite Hnow.
Qed.

(** X15. No id that the provider makes, for an added item, for a child or
    for an imported link, is one of the four default ids. *)
Theorem generated_ids_are_not_default :
  (∀ c a p newItem,
     (describe host c a p).1 = Some newItem → id newItem ∉ defaultItemIds)
  ∧ (∀ c a p newItem,
       (createForFolder host c a p).1 = Some newItem →
       id newItem ∉ defaultItemIds)
  ∧ (∀ data p item,
       item ∈ ps_items (parseChromeBookmarks host data p) →
       id item ∉ defaultItemIds).
Proof.
  assert (∀ t p, timestamp_id host (type_string t) p ∉ defaultItemIds) as Hts.
  { intros t p. unfold timestamp_id, defaultItemIds. simpl.
    rewrite !not_elem_of_cons. destruct t; split_and!; try done;
      apply not_elem_of_nil. }
  split_and!.
  - intros c a p newItem Hnew.
    destruct (describe_id host c a p newItem Hnew) as [-> _]. apply Hts.
  - intros c a p newItem Hnew.
    rewrite (createForFolder_id host c a p newItem Hnew). apply Hts.
  - intros data p item Hitem.
    destruct (importChromeBookmarks_parsed host data p) as (Hitems & _).
    simpl in Hitems. rewrite Hitems in Hitem.
    apply list_elem_of_lookup in Hitem as [k Hk].
    rewrite list_lookup_imap in Hk.
    destruct (reached_from_roots data !! k); [|done].
    simpl in Hk. injection Hk as <-. simpl.
    unfold chrome_id, defaultItemIds. simpl.
    rewrite !not_elem_of_cons. split_and!; try done. apply not_elem_of_nil.
Qed.

End GeneratedIds.

(** ** What the commands do to the list *)

Lemma effect_same (host : Host) (p : Provider) : effect host p p.
Proof. by left. Qed.

Lemma effect_show (host : Host) (m : Message) (p : Provider) :
  effect host p (show m p).
Proof. by left. Qed.

Lemma curates_same (p : Provider) : curates p p.
Proof. by left. Qed.

Lemma curates_show (m : Message) (p : Provider) : curates p (show m p).
Proof. by left. Qed.

Lemma curates_effect (host : Host) (p q : Provider) :
  curates p q → effect host p q.
Proof.
  intros [?|(l & k & Hc & Hs)]; [by left|].
  right. exists l, k. split; [by apply change_curate|done].
Qed.

(** The provider that a method leaves after it has changed the list to
    [l]: saved, rendered or not, with or without a message. *)
Lemma saves_saved (p p1 : Provider) (l : list DockItem) :
  configuration p1 = configuration p →
  saves p l (clock_calls p1) (saveConfiguration (set_dockItems l p1)).
Proof. intros Hcfg. unfold saves. simpl. by rewrite Hcfg. Qed.

Lemma saves_createDockItems (p q : Provider) (l : list DockItem) (k : nat) :
  saves p l k q → saves p l k (createDockItems q).
Proof. done. Qed.

Lemma saves_show (p q : Provider) (l : list DockItem) (k : nat) (m : Message) :
  saves p l k q → saves p l k (show m q).
Proof. done. Qed.

Lemma elem_of_editable (l : list DockItem) (i : nat) (it : DockItem) :
  l !! i = Some it → unprotected it → editable l (TopLevel i).
Proof. intros. by exists it. Qed.

Section Effects.

Variable host : Host.

Lemma describe_provider (c : AddChoice) (a : Answers) (p : Provider) :
  (describe host c a p).2
  = (if (describe host c a p).1 is Some _ then tick p else p).
Proof.
  unfold describe, createAppItem, createFileItem, createFolderItem,
    createLinkItem, createFolderGroup.
  destruct c; simpl; repeat (case_match; simpl; try done).
Qed.

Lemma createForFolder_provider (c : FolderAddChoice) (a : Answers) (p : Provider) :
  (createForFolder host c a p).2
  = (if (createForFolder host c a p).1 is Some _ then tick p else p).
Proof.
  unfold createForFolder, createAppItem, createFileItem, createFolderItem,
    createLinkItem.
  destruct c; simpl; repeat (case_match; simpl; try done).
Qed.

Lemma showAddItemDialog_effect (c : option AddChoice) (a : Answers) (p : Provider) :
  effect host p (showAddItemDialog host c a p).
Proof.
  destruct c as [c|]; [|apply effect_same].
  rewrite showAddItemDialog_describe. unfold commit.
  pose proof (describe_provider c a p) as Hp.
  destruct (describe host c a p).1 as [newItem|] eqn:Hnew.
  - right. exists (dockItems p ++ [newItem]), (S (clock_calls p)). split.
    + apply change_push. by eapply describe_id.
    + rewrite Hp. done.
  - rewrite Hp. apply effect_same.
Qed.

Lemma showAddFolderDialog_effect (a : Answers) (p : Provider) :
  effect host p
    (showAddFolderDialog host (ans_name a) (ans_title a) (ans_color a) p).
Proof. apply (showAddItemDialog_effect (Some ChooseFolderGroup) a p). Qed.

Lemma importChromeBookmarks_effect (f : BookmarksFile) (p : Provider) :
  effect host p (importChromeBookmarks host f p).
Proof.
  destruct f as [|e|data]; [apply effect_show..|].
  destruct (importChromeBookmarks_parsed host data p) as (Hitems & _ & Hnone).
  cbv zeta in Hitems, Hnone.
  destruct (decide (ps_items (parseChromeBookmarks host data p) = []))
    as [Hnil|Hsome].
  { rewrite Hnone by done. apply effect_show. }
  right. eexists _, _.
  split; [apply (change_import host p (reached_from_roots data))|].
  unfold importChromeBookmarks.
  rewrite bool_decide_eq_true_2
    by (destruct (ps_items _); [done|simpl; lia]).
  unfold saves. simpl. rewrite <- Hitems.
  rewrite parseChromeBookmarks_reached.
  destruct (extend_items host (mkParseState [] (clock_calls p) (random_calls p))
                         (reached_from_roots data)) as (_ & Hclock & _).
  simpl in Hclock. by rewrite Hclock.
Qed.

Lemma clearAllItems_effect (result : option string) (p : Provider) :
  effect host p (clearAllItems result p).
Proof.
  unfold clearAllItems. case_bool_decide; [|apply effect_same].
  right. exists getDefaultItems, (clock_calls p). split; [constructor|done].
Qed.

Lemma editItem_curates (r : ItemRef) (a : EditAnswers) (p : Provider) :
  editable (dockItems p) r → curates p (editItem r a p).
Proof.
  intros Hr. unfold editItem.
  destruct (deref (dockItems p) r) as [it|] eqn:Hit; [|apply curates_same].
  destruct (editFields a it) as [it'|] eqn:Hedit; [|apply curates_same].
  assert (id it' = id it ∧ type it' = type it) as [Hid Hty].
  { unfold editFields in Hedit.
    destruct (newName a) as [n|] eqn:Hn; [|done].
    destruct (newTitle a) as [t|] eqn:Ht; [|done].
    destruct (editFields_spec a it n t Hn Ht) as (it2 & Hedit2 & Hid & Hty & _).
    unfold editFields in Hedit2. rewrite Hn, Ht in Hedit2.
    rewrite Hedit in Hedit2. by injection Hedit2 as <-. }
  right. eexists _, _. split; [by eapply (curate_object p r it it')|done].
Qed.

Lemma addItemToFolder_curates (r : ItemRef) (c : option FolderAddChoice)
    (a : Answers) (p : Provider) :
  editable (dockItems p) r → curates p (addItemToFolder host r c a p).
Proof.
  intros Hr. unfold addItemToFolder.
  destruct (deref (dockItems p) r) as [target|] eqn:Htarget; [|apply curates_same].
  destruct c as [c|]; [|apply curates_same].
  pose proof (createForFolder_provider c a p) as Hp.
  destruct (createForFolder host c a p) as [[newItem|] p1]; simpl in Hp; subst p1;
    [|apply curates_same].
  right. eexists _, _. split.
  - by eapply (curate_object p r target (appendChild newItem target)
                             (S (clock_calls p))); [..|lia].
  - done.
Qed.

Lemma changeFolderColor_curates (r : ItemRef) (c : option ColorPick) (p : Provider) :
  editable (dockItems p) r → curates p (changeFolderColor r c p).
Proof.
  intros Hr. unfold changeFolderColor.
  destruct (deref (dockItems p) r) as [f|] eqn:Hf; [|apply curates_same].
  destruct c as [c|]; [|apply curates_same].
  right. eexists _, _. split; [|done].
  by eapply (curate_object p r f).
Qed.

Lemma moveItemInFolder_curates (item : DockItem) (r : ItemRef) (d : Z) (p : Provider) :
  editable (dockItems p) r → curates p (moveItemInFolder item r d p).
Proof.
  intros Hr. unfold moveItemInFolder.
  destruct (deref (dockItems p) r) as [f|] eqn:Hf; [|apply curates_same].
  destruct (children f) as [cs|]; [|apply curates_same].
  destruct (moveChild item d (name f) cs) as [[[cs' m] [|]]|];
    [|apply curates_show|apply curates_same].
  right. eexists _, _. split; [|done].
  by eapply (curate_object p r f).
Qed.

Lemma removeItemFromFolder_curates (item : DockItem) (r : ItemRef)
    (result : option string) (p : Provider) :
  editable (dockItems p) r → curates p (removeItemFromFolder item r result p).
Proof.
  intros Hr. unfold removeItemFromFolder.
  case_bool_decide; [|apply curates_same].
  destruct (deref (dockItems p) r) as [f|] eqn:Hf; [|apply curates_same].
  destruct (children f) as [cs|]; [|apply curates_same].
  destruct (findIndex _ cs); [|apply curates_same].
  right. eexists _, _. split; [|done].
  by eapply (curate_object p r f).
Qed.

Lemma removeTopLevel_curates (message : string) (item : DockItem)
    (result : option string) (p : Provider) :
  item ∈ dockItems p → unprotected item →
  curates p (removeTopLevel message item result p).
Proof.
  intros Hin Hun. unfold removeTopLevel.
  case_bool_decide; [|apply curates_same].
  destruct (findIndex _ _) as [i|] eqn:Hfind; [|apply curates_same].
  right. eexists _, _. split; [by eapply (curate_remove p i item)|done].
Qed.

Lemma moveItem_curates (item : DockItem) (d : Z) (p : Provider) :
  curates p (moveItem item d p).
Proof.
  unfold moveItem.
  destruct (findIndex _ _) as [i|] eqn:Hfind; [|apply curates_same].
  destruct (_ || _) eqn:Hout; [apply curates_show|].
  apply orb_false_iff in Hout as [Hlow Hhigh].
  apply Z.ltb_ge in Hlow. apply Z.leb_gt in Hhigh.
  right. eexists _, _. split; [|done].
  apply (curate_swap p i _ item); [done|lia].
Qed.

End Effects.

(** ** The entries of Manage Items *)

Section Menus.

Variable host : Host.

(** An entry stands for a top-level object, with the flags computed from
    it, or for a child of a folder group. *)
Lemma manageEntries_spec (l : list DockItem) (e : ManageEntry) :
  e ∈ manageEntries host l →
  (∃ i item,
     l !! i = Some item ∧ me_item e = TopLevel i ∧ me_parentFolder e = None
     ∧ me_isFolderGroup e = bool_decide (type item = folder_group)
     ∧ me_isDefault e = bool_decide (id item ∈ defaultItemIds))
  ∨ (∃ i j f child,
       l !! i = Some f ∧ type f = folder_group
       ∧ deref l (InFolder i j) = Some child
       ∧ me_item e = InFolder i j ∧ me_parentFolder e = Some (TopLevel i)
       ∧ me_isFolderGroup e = false).
Proof.
  unfold manageEntries. rewrite list_elem_of_In, in_concat.
  intros (es & Hes & He). apply list_elem_of_In in Hes, He.
  apply elem_of_lookup_imap in Hes as (i & item & -> & Hitem).
  unfold manageEntriesOf in He. case_bool_decide as Hty.
  - apply elem_of_cons in He as [->|He].
    + left. exists i, item. simpl. by rewrite bool_decide_eq_true_2.
    + right. apply elem_of_lookup_imap in He as (j & child & -> & Hchild).
      exists i, j, item, child. simpl. rewrite Hitem.
      destruct (children item); simpl in Hchild; [done|].
      by destruct j.
  - apply list_elem_of_singleton in He as ->.
    left. exists i, item. simpl. by rewrite bool_decide_eq_false_2.
Qed.

Lemma childAction_curates (selected folder : ItemRef) (r : Replies) (p : Provider) :
  editable (dockItems p) selected → editable (dockItems p) folder →
  curates p (childAction selected folder r p).
Proof.
  intros Hselected Hfolder. unfold childAction.
  destruct (deref (dockItems p) selected) as [item|]; [|apply curates_same].
  destruct (picked childActions (re_action r)) as [label|]; [|apply curates_same].
  repeat case_match;
    auto using curates_same, editItem_curates, removeItemFromFolder_curates,
      moveItemInFolder_curates.
Qed.

Lemma showManageItemsDialog_curates (r : Replies) (p : Provider) :
  curates p (showManageItemsDialog host r p).
Proof.
  unfold showManageItemsDialog. case_bool_decide; [apply curates_show|].
  destruct (picked (manageEntries host (dockItems p)) (re_selected r))
    as [selected|] eqn:Hpicked; [|apply curates_same].
  assert (selected ∈ manageEntries host (dockItems p)) as Hin.
  { unfold picked in Hpicked. destruct (re_selected r); [|done].
    by eapply list_elem_of_lookup_2. }
  apply manageEntries_spec in Hin
    as [(i & item & Hitem & Href & Hparent & Hgroup & Hdefault)
       |(i & j & f & child & Hf & Hty & Hchild & Href & Hparent & Hgroup)];
    rewrite Href, Hgroup, ?Hparent, ?Hdefault; clear Hgroup.
  - clear Hdefault. simpl. rewrite Hitem.
    assert (item ∈ dockItems p) as Hin by (by eapply list_elem_of_lookup_2).
    case_bool_decide as Hty.
    + assert (unprotected item) as Hun by (by left).
      assert (editable (dockItems p) (TopLevel i)) as Hed
        by (by eapply elem_of_editable).
      destruct (picked groupActions (re_action r)); [|apply curates_same].
      unfold removeFolderGroup.
      repeat case_match;
        auto using curates_same, editItem_curates, addItemToFolder_curates,
          changeFolderColor_curates, removeTopLevel_curates, moveItem_curates.
    + case_bool_decide as Hdef.
      * destruct (picked defaultActions (re_action r)); [|apply curates_same].
        repeat case_match; auto using curates_same, moveItem_curates.
      * assert (unprotected item) as Hun by (by right).
        assert (editable (dockItems p) (TopLevel i)) as Hed
          by (by eapply elem_of_editable).
        destruct (picked itemActions (re_action r)); [|apply curates_same].
        unfold deleteItem.
        repeat case_match;
          auto using curates_same, editItem_curates, removeTopLevel_curates,
            moveItem_curates.
  - rewrite Hchild. simpl.
    apply childAction_curates.
    + by exists f.
    + exists f. split; [done|by left].
Qed.

Lemma showConfigurationDialog_effect (r : Replies) (p : Provider) :
  effect host p (showConfigurationDialog host r p).
Proof.
  unfold showConfigurationDialog.
  destruct (picked configurationActions (re_config r)); [|apply effect_same].
  repeat case_bool_decide;
    auto using effect_same, showAddItemDialog_effect, curates_effect,
      showManageItemsDialog_curates, importChromeBookmarks_effect,
      clearAllItems_effect.
Qed.

Lemma execute_effect (c : PaletteCommand) (r : Replies) (p : Provider) :
  effect host p (execute host c r p).
Proof.
  destruct c; simpl;
    auto using showAddItemDialog_effect, showAddFolderDialog_effect,
      importChromeBookmarks_effect, showConfigurationDialog_effect.
Qed.

(** X16. Whatever the replies, a command of the palette either leaves the
    list, the settings and the clock count as they were, or makes exactly
    one change of the list and saves it beside the unchanged other
    settings: a push of an item with a timestamp id, a push of imported
    links, the reset, the replacement of one editable object by an object
    of the same id and type, the removal of the first object with the id of
    an unprotected item, or a swap of the first object with the id of an
    item and an object of the list. *)
Theorem execute_changes_list_once (c : PaletteCommand) (r : Replies)
    (p : Provider) :
  keeps p (execute host c r p)
  ∨ ∃ l k, ListChange host p l k ∧ saves p l k (execute host c r p).
Proof. apply execute_effect. Qed.

End Menus.

(** ** Default items *)

Lemma filter_none {A} (P : A → Prop) `{∀ x, Decision (P x)} (l : list A) :
  Forall (λ x, ¬ P x) l → filter P l = [].
Proof.
  induction 1 as [|x l Hx _ IH]; [done|].
  by rewrite filter_cons_False.
Qed.

Lemma filter_insert_other {A} (P : A → Prop) `{∀ x, Decision (P x)}
    (l : list A) (i : nat) (x y : A) :
  l !! i = Some x → ¬ P x → ¬ P y → filter P (<[i:=y]> l) = filter P l.
Proof.
  intros Hx Hpx Hpy. pose proof (lookup_lt_Some _ _ _ Hx).
  rewrite insert_take_drop by done.
  rewrite <- (take_drop_middle l i x Hx) at 3.
  by rewrite !filter_app, !filter_cons_False.
Qed.

Lemma filter_delete_other {A} (P : A → Prop) `{∀ x, Decision (P x)}
    (l : list A) (i : nat) (x : A) :
  l !! i = Some x → ¬ P x → filter P (delete i l) = filter P l.
Proof.
  intros Hx Hpx. rewrite delete_take_drop.
  rewrite <- (take_drop_middle l i x Hx) at 3.
  by rewrite !filter_app, filter_cons_False.
Qed.

Lemma guarded_shape (l k : list DockItem) :
  (λ it, (id it, type it)) <$> l = (λ it, (id it, type it)) <$> k →
  guarded l → guarded k.
Proof.
  unfold guarded. revert k. induction l as [|x l IH]; intros [|y k] Heq Hl;
    try done.
  injection Heq as Hid Hty Hrest.
  apply Forall_cons in Hl as [Hx Hl].
  apply Forall_cons. split; [by rewrite <- Hid, <- Hty|]. by apply IH.
Qed.

Lemma guarded_lookup (l : list DockItem) (i : nat) (it : DockItem) :
  guarded l → l !! i = Some it → unprotected it → id it ∉ defaultItemIds.
Proof.
  intros Hg Hit [Hty|Hid]; [|done].
  by apply (Forall_lookup_1 _ _ _ _ Hg Hit).
Qed.

Lemma assign_keeps_defaults (l : list DockItem) (r : ItemRef)
    (target it' : DockItem) :
  guarded l → deref l r = Some target → editable l r → id it' = id target →
  default_items (assign l r it') = default_items l.
Proof.
  intros Hg Htarget Hr Hid. unfold default_items.
  destruct r as [i|i j]; simpl in *.
  - destruct Hr as (it & Hit & Hun). simplify_eq.
    apply (filter_insert_other _ _ _ target); [done|..].
    + by eapply guarded_lookup.
    + rewrite Hid. by eapply guarded_lookup.
  - destruct Hr as (f & Hf & Hty). rewrite Hf in Htarget |- *.
    destruct (children f) as [cs|]; [|done].
    assert (id f ∉ defaultItemIds)
      by (eapply guarded_lookup; [done..|by left]).
    by apply (filter_insert_other _ _ _ f).
Qed.

Lemma curation_keeps_defaults (p : Provider) (l : list DockItem) (k : nat) :
  guarded (dockItems p) → Curation p l k →
  guarded l ∧ default_items l ≡ₚ default_items (dockItems p)
  ∧ length l ≤ length (dockItems p).
Proof.
  intros Hg [r target it' k' Htarget Hr Hid Hty Hk|i item Hitem Hun Hfind
            |i j item Hfind Hj].
  - split_and!.
    + eapply guarded_shape; [|done]. symmetry. by eapply assign_same_shape.
    + by erewrite assign_keeps_defaults.
    + by rewrite length_assign.
  - apply findIndex_Some in Hfind as [(x & Hx & Hid) _].
    unfold has_id in Hid. apply bool_decide_eq_true_1 in Hid.
    split_and!.
    + by apply Forall_delete.
    + unfold default_items. erewrite filter_delete_other; [done..|].
      rewrite Hid. apply list_elem_of_lookup in Hitem as [i' Hitem].
      by eapply guarded_lookup.
    + pose proof (lookup_lt_Some _ _ _ Hx). rewrite length_delete by done. lia.
  - split_and!.
    + unfold guarded. by rewrite swap_Permutation.
    + unfold default_items. by rewrite swap_Permutation.
    + by rewrite length_swap.
Qed.

Section DefaultItems.

Variable host : Host.

Lemma timestamp_id_not_default (t : ItemType) (p : Provider) :
  timestamp_id host (type_string t) p ∉ defaultItemIds.
Proof.
  unfold timestamp_id, defaultItemIds. simpl.
  rewrite !not_elem_of_cons. destruct t; split_and!; try done;
    apply not_elem_of_nil.
Qed.

Lemma chrome_id_not_default (c r : nat) : chrome_id host c r ∉ defaultItemIds.
Proof.
  unfold chrome_id, defaultItemIds. simpl.
  rewrite !not_elem_of_cons. split_and!; try done. apply not_elem_of_nil.
Qed.

Lemma change_keeps_defaults (p : Provider) (l : list DockItem) (k : nat) :
  guarded (dockItems p) → ListChange host p l k →
  guarded l
  ∧ (default_items l ≡ₚ default_items (dockItems p) ∨ l = getDefaultItems).
Proof.
  intros Hg [newItem Hid|nodes| |l' k' Hc].
  - assert (id newItem ∉ defaultItemIds)
      by (rewrite Hid; apply timestamp_id_not_default).
    split.
    + apply Forall_app. split; [done|]. by apply Forall_singleton.
    + left. unfold default_items.
      by rewrite filter_app, filter_cons_False, filter_nil, app_nil_r.
  - assert (Forall (λ it, id it ∉ defaultItemIds)
                   (imap (λ k node,
                            mkDockItem (chrome_id host (clock_calls p + k)
                                                  (random_calls p + k))
                                       link (node_name node) None None
                                       (node_url node) (Some "$(globe)") None
                                       None None) nodes)) as Hall.
    { apply Forall_forall. intros it (j & node & -> & _)%elem_of_lookup_imap.
      apply chrome_id_not_default. }
    split.
    + apply Forall_app. split; [done|].
      eapply Forall_impl; [exact Hall|]. by intros it Hit _.
    + left. unfold default_items.
      by rewrite filter_app, (filter_none _ _ Hall), app_nil_r.
  - split; [|by right].
    unfold guarded, getDefaultItems. by repeat constructor.
  - destruct (curation_keeps_defaults p l' k' Hg Hc) as (? & ? & _). auto.
Qed.

(** X17. In a list in which no folder group carries a default id, Manage
    Items never edits or removes a default item, whatever entry and action
    are picked and whatever is answered: the objects with a default id are
    the same before and after, at most in another order.  It never makes
    the list longer, and what it changes it saves. *)
Theorem manage_dialog_keeps_default_items (r : Replies) (p : Provider) :
  guarded (dockItems p) →
  let q := showManageItemsDialog host r p in
  default_items (dockItems q) ≡ₚ default_items (dockItems p)
  ∧ guarded (dockItems q)
  ∧ length (dockItems q) ≤ length (dockItems p)
  ∧ (dockItems q ≠ dockItems p →
     cfg_items (configuration q) = Some (dockItems q)).
Proof.
  intros Hg q.
  destruct (showManageItemsDialog_curates host r p)
    as [(Hl & Hc & _)|(l & k & Hcur & Hl & _ & Hcfg)]; fold q in Hl.
  - rewrite Hl. split_and!; [done..|]. by intros [].
  - destruct (curation_keeps_defaults p l k Hg Hcur) as (? & ? & ?).
    fold q in Hcfg. rewrite Hl, Hcfg. by split_and!.
Qed.

End DefaultItems.

(** ** Sessions *)

Section Sessions.

Variable host : Host.

(** What holds after [initialize] and is kept by every effect holds at the
    end of a session. *)
Lemma session_invariant (I : Provider → Prop)
    (script : list (PaletteCommand * Replies)) (p0 : Provider) :
  I (initialize p0) →
  (∀ p q, effect host p q → I p → I q) →
  I (session host script p0).
Proof.
  intros Hinit Hstep. unfold session.
  generalize dependent (initialize p0).
  induction script as [|[c r] script IH]; intros p Hp; [done|].
  simpl. apply IH. eapply Hstep; [apply execute_effect|done].
Qed.

(** X18. At the end of every session the settings hold the list that the
    provider holds, the three display settings are those found at the
    start, and a provider that starts from these settings gets the same
    list back, or the default items when the list was emptied. *)
Theorem session_is_saved (script : list (PaletteCommand * Replies))
    (p0 q' : Provider) :
  let q := session host script p0 in
  cfg_items (configuration q) = Some (dockItems q)
  ∧ cfg_maxItems (configuration q) = cfg_maxItems (configuration p0)
  ∧ cfg_showIcons (configuration q) = cfg_showIcons (configuration p0)
  ∧ cfg_showTitles (configuration q) = cfg_showTitles (configuration p0)
  ∧ (configuration q' = configuration q →
     dockItems (initialize q')
     = (if bool_decide (dockItems q = []) then getDefaultItems else dockItems q)).
Proof.
  intros q.
  assert (cfg_items (configuration q) = Some (dockItems q)
          ∧ cfg_maxItems (configuration q) = cfg_maxItems (configuration p0)
          ∧ cfg_showIcons (configuration q) = cfg_showIcons (configuration p0)
          ∧ cfg_showTitles (configuration q) = cfg_showTitles (configuration p0))
    as (Hitems & Hmax & Hicons & Htitles).
  { subst q.
    apply (session_invariant
             (λ q, cfg_items (configuration q) = Some (dockItems q)
                   ∧ cfg_maxItems (configuration q) = cfg_maxItems (configuration p0)
                   ∧ cfg_showIcons (configuration q) = cfg_showIcons (configuration p0)
                   ∧ cfg_showTitles (configuration q)
                     = cfg_showTitles (configuration p0))).
    - unfold initialize, loadConfiguration. autorewrite with dock.
      destruct p0 as [sb l [[[|x items]|] cm ci ct] ms cc rc]; by simpl.
    - intros p q [(Hl & Hc & _)|(l & k & _ & Hl & _ & Hc)]
        (Hitems & Hmax & Hicons & Htitles); rewrite Hl, Hc; [|simpl];
        by split_and!. }
  split_and!; try done.
  intros Hcfg. unfold initialize, loadConfiguration. autorewrite with dock.
  rewrite Hcfg, Hitems. simpl.
  destruct (dockItems q); by simpl.
Qed.

(** X19. After a fresh start, with no stored list, the four default items
    are in the list at the end of every session, as the very objects that
    were seeded.  More generally, when no folder group of the loaded list
    carries a default id, the objects with a default id at the end of a
    session are those loaded, or the four seeded by a reset. *)
Theorem session_keeps_default_items (script : list (PaletteCommand * Replies))
    (p0 : Provider) :
  let q := session host script p0 in
  (default [] (cfg_items (configuration p0)) = [] →
     default_items (dockItems q) ≡ₚ getDefaultItems
     ∧ (∀ d, d ∈ getDefaultItems → d ∈ dockItems q))
  ∧ (guarded (dockItems (initialize p0)) →
     guarded (dockItems q)
     ∧ (default_items (dockItems q) ≡ₚ default_items (dockItems (initialize p0))
        ∨ default_items (dockItems q) ≡ₚ getDefaultItems)).
Proof.
  intros q.
  assert (guarded (dockItems (initialize p0)) →
          guarded (dockItems q)
          ∧ (default_items (dockItems q)
             ≡ₚ default_items (dockItems (initialize p0))
             ∨ default_items (dockItems q) ≡ₚ getDefaultItems)) as Hgeneral.
  { intros Hg. subst q.
    apply (session_invariant
             (λ q, guarded (dockItems q)
                   ∧ (default_items (dockItems q)
                      ≡ₚ default_items (dockItems (initialize p0))
                      ∨ default_items (dockItems q) ≡ₚ getDefaultItems)));
      [by split; [|left]|].
    intros p q [(Hl & _)|(l & k & Hchange & Hl & _)] [Hgp Hd]; rewrite Hl;
      [done|].
    destruct (change_keeps_defaults host p l k Hgp Hchange) as [Hgl [Hsame| ->]].
    - split; [done|]. by rewrite Hsame.
    - split; [done|]. by right. }
  split; [|done].
  intros Hfresh.
  assert (dockItems (initialize p0) = getDefaultItems) as Hinit.
  { unfold initialize, loadConfiguration. autorewrite with dock.
    rewrite Hfresh. done. }
  rewrite Hinit in Hgeneral.
  destruct Hgeneral as [_ Hd].
  { unfold guarded, getDefaultItems. by repeat constructor. }
  assert (default_items (dockItems q) ≡ₚ getDefaultItems) as Hperm
    by (by destruct Hd).
  split; [done|]. intros d Hd'.
  assert (d ∈ default_items (dockItems q)) as Hin by (by rewrite Hperm).
  unfold default_items in Hin. by apply list_elem_of_filter in Hin as [_ ?].
Qed.

End Sessions.

(** ** Unique ids *)

Lemma pretty_N_char_digit (x : N) : is_digit (pretty_N_char x) = true.
Proof. unfold pretty_N_char. by repeat case_match. Qed.

Lemma pretty_N_go_digits (x : N) (s : string) :
  all_digits s = true → all_digits (pretty_N_go x s) = true.
Proof.
  revert s. induction (N.lt_wf_0 x) as [x _ IH]; intros s Hs.
  assert (x = 0 ∨ 0 < x)%N as [->|Hpos] by lia.
  - by rewrite pretty_N_go_0.
  - rewrite pretty_N_go_step by done. apply IH.
    { by apply N.div_lt. }
    simpl. by rewrite pretty_N_char_digit.
Qed.

Lemma pretty_N_digits (x : N) : all_digits (pretty x) = true.
Proof.
  unfold pretty, pretty_N. case_decide; [done|].
  by apply pretty_N_go_digits.
Qed.

(** Two texts of digits that are each followed by a dash are equal when
    the whole texts are. *)
Lemma digits_dash_inj (d1 d2 s1 s2 : string) :
  all_digits d1 = true → all_digits d2 = true →
  d1 +:+ "-" +:+ s1 = d2 +:+ "-" +:+ s2 → d1 = d2.
Proof.
  revert d2. induction d1 as [|c d1 IH]; intros [|c' d2] H1 H2 Heq;
    simpl in *; [done|..].
  - injection Heq as <- _. done.
  - injection Heq as -> _. done.
  - injection Heq as -> Heq.
    apply andb_true_iff in H1 as [_ H1]. apply andb_true_iff in H2 as [_ H2].
    f_equal. by apply IH.
Qed.

Section UniqueIds.

Variable host : Host.

Lemma chrome_id_inj (j j' r r' : nat) :
  chrome_id host j r = chrome_id host j' r' → Date_now host j = Date_now host j'.
Proof.
  unfold chrome_id. intros Heq.
  apply (inj (String.app "chrome-")) in Heq.
  apply digits_dash_inj in Heq; [|apply pretty_N_digits..].
  by apply (inj pretty) in Heq.
Qed.

Lemma variant_id_inj (t1 t2 : ItemType) (a b : N) :
  type_string t1 +:+ "-" +:+ pretty a = type_string t2 +:+ "-" +:+ pretty b →
  t1 = t2 ∧ a = b.
Proof.
  intros Heq. destruct (decide (t1 = t2)) as [->|Hne].
  { split; [done|].
    apply (inj (String.app (type_string t2))) in Heq.
    apply (inj (String.app "-")) in Heq. by apply (inj pretty) in Heq. }
  exfalso.
  destruct t1, t2; simpl in Heq; try done; try discriminate Heq;
    injection Heq as Heq.
  - by apply pretty_N_ne_g in Heq.
  - symmetry in Heq. by apply pretty_N_ne_g in Heq.
Qed.

Lemma variant_id_not_chrome (t : ItemType) (a : N) (j r : nat) :
  type_string t +:+ "-" +:+ pretty a ≠ chrome_id host j r.
Proof. unfold chrome_id. by destruct t. Qed.

Lemma made_by_mono (k k' : nat) (i : string) :
  k ≤ k' → made_by host k i → made_by host k' i.
Proof.
  intros Hk [?|[(t & j & ? & ->)|(j & r & ? & ->)]].
  - by left.
  - right; left. exists t, j. split; [lia|done].
  - right; right. exists j, r. split; [lia|done].
Qed.

Hypothesis clock_never_repeats : Inj (=) (=) (Date_now host).

Lemma push_distinct (p : Provider) (newItem : DockItem) :
  distinct_ids host (dockItems p) (clock_calls p) →
  id newItem = timestamp_id host (type_string (type newItem)) p →
  distinct_ids host (dockItems p ++ [newItem]) (S (clock_calls p)).
Proof.
  intros [Hnodup Hmade] Hid. unfold distinct_ids. rewrite fmap_app. simpl.
  split.
  - apply NoDup_app. split_and!; [done| |apply NoDup_singleton].
    intros i Hi ->%list_elem_of_singleton.
    rewrite Forall_forall in Hmade. specialize (Hmade _ Hi).
    rewrite Hid in Hmade. unfold timestamp_id in Hmade.
    destruct Hmade as [Hd|[(t & j & Hj & Heq)|(j & r & Hj & Heq)]].
    + by eapply timestamp_id_not_default.
    + apply variant_id_inj in Heq as [_ Heq].
      apply clock_never_repeats in Heq. lia.
    + by apply variant_id_not_chrome in Heq.
  - apply Forall_app. split.
    + eapply Forall_impl; [exact Hmade|]. intros i. apply made_by_mono. lia.
    + apply Forall_singleton. right; left.
      exists (type newItem), (clock_calls p). split; [lia|done].
Qed.

Lemma import_distinct (p : Provider) (nodes : list BookmarkNode) :
  distinct_ids host (dockItems p) (clock_calls p) →
  distinct_ids host
    (dockItems p
     ++ imap (λ k node,
                mkDockItem (chrome_id host (clock_calls p + k) (random_calls p + k))
                           link (node_name node) None None (node_url node)
                           (Some "$(globe)") None None None) nodes)
    (clock_calls p + length nodes).
Proof.
  intros [Hnodup Hmade]. unfold distinct_ids. rewrite fmap_app.
  set (items := imap _ nodes).
  assert (∀ m i, (id <$> items) !! m = Some i →
                 m < length nodes
                 ∧ i = chrome_id host (clock_calls p + m) (random_calls p + m))
    as Hnew.
  { intros m i Hm. subst items.
    rewrite list_lookup_fmap, list_lookup_imap in Hm.
    destruct (nodes !! m) as [node|] eqn:Hnode; [|done].
    simpl in Hm. injection Hm as <-.
    split; [by eapply lookup_lt_Some|done]. }
  split.
  - apply NoDup_app. split_and!; [done| |].
    + intros i Hi [m Hm]%list_elem_of_lookup.
      apply Hnew in Hm as [Hlt ->].
      rewrite Forall_forall in Hmade. specialize (Hmade _ Hi).
      destruct Hmade as [Hd|[(t & j & Hj & Heq)|(j & r & Hj & Heq)]].
      * by eapply chrome_id_not_default.
      * symmetry in Heq. by apply variant_id_not_chrome in Heq.
      * apply chrome_id_inj, clock_never_repeats in Heq. lia.
    + apply NoDup_alt. intros m m' i Hm Hm'.
      apply Hnew in Hm as [_ ->]. apply Hnew in Hm' as [_ Heq].
      apply chrome_id_inj, clock_never_repeats in Heq. lia.
  - apply Forall_app. split.
    + eapply Forall_impl; [exact Hmade|]. intros i. apply made_by_mono. lia.
    + apply Forall_forall. intros i [m Hm]%list_elem_of_lookup.
      apply Hnew in Hm as [Hlt ->]. right; right.
      eexists _, _. split; [|done]. lia.
Qed.

Lemma defaults_distinct (k : nat) : distinct_ids host getDefaultItems k.
Proof.
  split.
  - apply (bool_decide_unpack _). by vm_compute.
  - apply Forall_forall. intros i Hi. by left.
Qed.

Lemma curation_distinct (p : Provider) (l : list DockItem) (k : nat) :
  distinct_ids host (dockItems p) (clock_calls p) → Curation p l k →
  distinct_ids host l k.
Proof.
  intros [Hnodup Hmade]
    [r target it' k' Htarget Hr Hid Hty Hk|i item Hitem Hun Hfind
    |i j item' Hfind Hj];
    unfold distinct_ids.
  - assert (id <$> assign (dockItems p) r it' = id <$> dockItems p) as ->.
    { pose proof (assign_same_shape _ r target it' Htarget Hid Hty) as Hshape.
      apply (f_equal (fmap fst)) in Hshape.
      by rewrite <- !list_fmap_compose in Hshape. }
    split; [done|].
    eapply Forall_impl; [exact Hmade|]. intros i. by apply made_by_mono.
  - rewrite list_fmap_delete. split.
    + apply (sublist_NoDup _ (id <$> dockItems p)); [done|apply sublist_delete].
    + by apply Forall_delete.
  - assert (id <$> swap (dockItems p) i j ≡ₚ id <$> dockItems p) as Hperm
      by (by rewrite swap_Permutation).
    by rewrite Hperm.
Qed.

Lemma change_distinct (p : Provider) (l : list DockItem) (k : nat) :
  distinct_ids host (dockItems p) (clock_calls p) → ListChange host p l k →
  distinct_ids host l k.
Proof.
  intros Hd [newItem Hid|nodes| |l' k' Hc].
  - by apply push_distinct.
  - by apply import_distinct.
  - apply defaults_distinct.
  - by eapply curation_distinct.
Qed.

(** X20. With a clock that never gives the same reading twice, the ids of
    the top-level items are pairwise distinct at the end of every session
    that starts without a stored list. *)
Theorem session_ids_are_unique (script : list (PaletteCommand * Replies))
    (p0 : Provider) :
  default [] (cfg_items (configuration p0)) = [] →
  NoDup (id <$> dockItems (session host script p0)).
Proof.
  intros Hfresh.
  enough (distinct_ids host (dockItems (session host script p0))
                       (clock_calls (session host script p0))) as [? _]; [done|].
  apply (session_invariant host
           (λ q, distinct_ids host (dockItems q) (clock_calls q))).
  - assert (dockItems (initialize p0) = getDefaultItems) as ->.
    { unfold initialize, loadConfiguration. autorewrite with dock.
      by rewrite Hfresh. }
    apply defaults_distinct.
  - intros p q [(Hl & _ & Hk)|(l & k & Hchange & Hl & Hk & _)] Hd;
      rewrite Hl, Hk; [done|].
    by eapply change_distinct.
Qed.

End UniqueIds.

(** ** Menus pick by label *)

Section MenuLabels.

Variable host : Host.


(** X22. For a folder with children, picking one of the children in
    [showFolderMenu] leaves the provider exactly as it is and hands the
    command of that child to the host, if the child has one; picking the
    separator does nothing; a dismissed menu does nothing. *)
Theorem showFolderMenu_opens_child (folderItem : ItemRef) (r : Replies)
    (p : Provider) (f : DockItem) (cs : list DockItem) :
  deref (dockItems p) folderItem = Some f →
  children f = Some cs → cs ≠ [] →
  (∀ k child,
     re_menu r = Some k → cs !! k = Some child →
     showFolderMenu host folderItem r p = (p, getCommandForItem child))
  ∧ (re_menu r = Some (length cs + 1) →
     showFolderMenu host folderItem r p = (p, None))
  ∧ (re_menu r = None → showFolderMenu host folderItem r p = (p, None)).
Proof.
  intros Hf Hcs Hne.
  assert (length cs ≠ 0) as Hlen by (by destruct cs).
  split_and!.
  - intros k child Hk Hchild. unfold showFolderMenu.
    rewrite Hf, Hcs. simpl. rewrite Hcs. simpl.
    rewrite bool_decide_eq_false_2 by done.
    rewrite Hk. unfold folderMenuEntries. simpl.
    rewrite lookup_app_l
      by (rewrite length_fmap; by eapply lookup_lt_Some).
    by rewrite list_lookup_fmap, Hchild.
  - intros Hk. unfold showFolderMenu.
    rewrite Hf, Hcs. simpl. rewrite Hcs. simpl.
    rewrite bool_decide_eq_false_2 by done.
    rewrite Hk. unfold folderMenuEntries. simpl.
    rewrite lookup_app_r by (rewrite length_fmap; lia).
    rewrite length_fmap.
    by replace (length cs + 1 - length cs) with 1 by lia.
  - intros Hk. unfold showFolderMenu.
    rewrite Hf, Hcs. simpl. rewrite Hcs. simpl.
    rewrite bool_decide_eq_false_2 by done.
    by rewrite Hk.
Qed.


End MenuLabels.

(** ** More on the projection *)

(** X24. A negative [maxItems] is not treated as zero: [slice] then counts
    from the end, so the status bar shows all items but the last
    [-maxItems], followed by the add button. *)
Theorem createDockItems_negative_maxItems (p : Provider) (N : Z) :
  (N < 0)%Z →
  get_maxItems (configuration p) = N →
  let shown := take (length (dockItems p) - Z.to_nat (- N)) (dockItems p) in
  statusBarItems (createDockItems p)
  = imap (renderItem (get_showIcons (configuration p))
                     (get_showTitles (configuration p))) shown
    ++ [addButton]
  ∧ length (statusBarItems (createDockItems p))
    = length (dockItems p) - Z.to_nat (- N) + 1.
Proof.
  intros HN Hmax shown.
  assert (statusBarItems (createDockItems p)
          = imap (renderItem (get_showIcons (configuration p))
                             (get_showTitles (configuration p))) shown
            ++ [addButton]) as ->.
  { unfold createDockItems. simpl. by rewrite Hmax, slice0_negative. }
  split; [done|].
  rewrite length_app, length_imap. subst shown. rewrite length_take. simpl. lia.
Qed.

(** X25. The entry of the item at position [k] gets the priority
    [1000 - k] and the add button the priority 500.  So every item entry
    ranks above the add button exactly when at most 500 items are shown;
    from the 501st item on, an entry ranks at or below it. *)
Theorem createDockItems_priorities (p : Provider) :
  let entries := statusBarItems (createDockItems p) in
  let n := length entries - 1 in
  (∀ k sb, k < n → entries !! k = Some sb → sb_priority sb = (1000 - Z.of_nat k)%Z)
  ∧ sb_priority <$> entries !! n = Some 500%Z
  ∧ ((∀ k sb, k < n → entries !! k = Some sb → (500 < sb_priority sb)%Z)
     ↔ n ≤ 500).
Proof.
  intros entries n.
  set (shown := slice0 (dockItems p) (get_maxItems (configuration p))).
  set (entry := renderItem (get_showIcons (configuration p))
                           (get_showTitles (configuration p))).
  assert (entries = imap entry shown ++ [addButton]) as Hentries by done.
  assert (n = length shown) as Hn.
  { subst n. rewrite Hentries, length_app, length_imap. simpl. lia. }
  assert (∀ k sb, k < n → entries !! k = Some sb →
                  sb_priority sb = (1000 - Z.of_nat k)%Z) as Hprio.
  { intros k sb Hk Hsb. rewrite Hentries in Hsb.
    rewrite lookup_app_l in Hsb by (rewrite length_imap; lia).
    rewrite list_lookup_imap in Hsb.
    destruct (shown !! k); [|done]. simpl in Hsb. by injection Hsb as <-. }
  split_and!.
  - done.
  - rewrite Hentries, lookup_app_r by (rewrite length_imap; lia).
    rewrite length_imap, Hn, Nat.sub_diag. done.
  - split.
    + intros Hall. destruct (decide (n ≤ 500)) as [|Hbig]; [done|].
      destruct (lookup_lt_is_Some_2 entries 500) as [sb Hsb].
      { rewrite Hentries, length_app, length_imap. simpl. lia. }
      specialize (Hall 500 sb ltac:(lia) Hsb).
      rewrite (Hprio 500 sb) in Hall by (lia || done). lia.
    + intros Hsmall k sb Hk Hsb. rewrite (Hprio k sb) by done. lia.
Qed.

(** ** Children are reordered, not lost *)

(** X26. Whatever the item and the direction, [moveItemInFolder] leaves the
    folder with a rearrangement of the children it had, and every other
    field of the folder as it was. *)
Theorem moveItemInFolder_permutes_children (item : DockItem) (folder : ItemRef)
    (direction : Z) (p : Provider) (f : DockItem) (cs : list DockItem) :
  deref (dockItems p) folder = Some f →
  children f = Some cs →
  ∃ cs',
    deref (dockItems (moveItemInFolder item folder direction p)) folder
    = Some (set_children (Some cs') f)
    ∧ cs' ≡ₚ cs.
Proof.
  intros Hf Hcs. unfold moveItemInFolder, moveChild. rewrite Hf, Hcs.
  assert (Some f = Some (set_children (Some cs) f)) as Hsame.
  { destruct f; simpl in *. by subst. }
  destruct (findIndex _ cs) as [index|].
  - destruct (_ || _).
    + exists cs. by rewrite dockItems_show, Hf.
    + eexists. autorewrite with dock. split; [by eapply deref_assign|].
      apply swap_Permutation.
  - exists cs. by rewrite Hf.
Qed.

(** ** Entries without a click action *)

(** X27. The entry of an app, a file, a folder or a link has no command
    exactly when the field that its action needs is missing or empty: the
    command of an app, the path of a file or folder, the URL of a link.
    The entry of a folder group has no command exactly when the group has
    no list of children at all; with a list, even an empty one, its command
    opens the folder menu on the object at the position of the entry. *)
Theorem renderItem_inert_iff (showIcons showTitles : bool) (index : nat)
    (item : DockItem) :
  (sb_command (renderItem showIcons showTitles index item) = None
   ↔ match type item with
     | app => truthy (command item) = false
     | file | folder => truthy (path item) = false
     | link => truthy (url item) = false
     | folder_group => children item = None
     end)
  ∧ (∀ cs,
       type item = folder_group → children item = Some cs →
       sb_command (renderItem showIcons showTitles index item)
       = Some (CommandObject
                 (mkCommand "vscode-dock.showFolderMenu" (name item)
                            (Some [ArgItem (TopLevel index)])))).
Proof.
  unfold renderItem, getCommandForItem, truthy. simpl.
  destruct item as [i ty nm ti pa u ic co ch cm]; simpl.
  split.
  - destruct ty; simpl.
    + destruct cm as [c|]; [|done]. by case_bool_decide.
    + destruct pa as [c|]; [|done]. by case_bool_decide.
    + destruct pa as [c|]; [|done]. by case_bool_decide.
    + destruct u as [c|]; [|done]. by case_bool_decide.
    + destruct ch as [cs|].
      * by rewrite bool_decide_eq_true_2 by (by eexists).
      * by rewrite bool_decide_eq_false_2 by (by intros [? ?]).
  - intros cs -> ->. by rewrite bool_decide_eq_true_2 by (by eexists).
Qed.

(** * The further properties at sample inputs *)

(** X2 at the middle item of three, moved down. *)
Lemma moveItem_trades_places_witness :
  findIndex (has_id (id chrome_app)) (dockItems three_items) = Some 1
  ∧ (0 ≤ Z.of_nat 1 + 1 < Z.of_nat (length (dockItems three_items)))%Z
  ∧ dockItems (moveItem chrome_app 1 three_items) !! 2 = Some chrome_app
  ∧ dockItems (moveItem chrome_app 1 three_items) !! 1 = Some work_group.
Proof.
  destruct (moveItem_trades_places chrome_app 1 three_items 1 eq_refl
              ltac:(simpl; lia)) as (Hto & Hfrom & _).
  split_and!; [reflexivity|simpl; lia|simpl; lia|exact Hto|exact Hfrom].
Defined.

(** X3 at the middle item of three. *)
Lemma moveItem_up_down_restores_witness :
  findIndex (has_id (id chrome_app)) (dockItems three_items) = Some 1
  ∧ dockItems (moveItem chrome_app 1 (moveItem chrome_app (-1) three_items))
    = dockItems three_items.
Proof.
  split; [reflexivity|].
  exact (moveItem_up_down_restores chrome_app three_items 0 eq_refl).
Defined.

(** X4 at the middle item of three. *)
Lemma removal_takes_first_occurrence_witness :
  findIndex (has_id (id chrome_app)) (dockItems three_items) = Some 1
  ∧ dockItems (deleteItem chrome_app (Some "Yes") three_items)
    = [docs_link; work_group]
  ∧ cfg_items (configuration (removeItem chrome_app (Some "Yes") three_items))
    = Some [docs_link; work_group].
Proof.
  destruct (removal_takes_first_occurrence chrome_app three_items 1 eq_refl)
    as (Hdeleted & _ & _ & _ & Hsaved & _).
  split_and!; [reflexivity|exact Hdeleted|exact Hsaved].
Defined.

(** X5 at a warning that is dismissed. *)
Lemma removal_void_witness :
  (None ≠ Some "Yes" ∨ id chrome_app ∉ id <$> dockItems three_items)
  ∧ deleteItem chrome_app None three_items = three_items.
Proof.
  assert (@None string ≠ Some "Yes"
          ∨ id chrome_app ∉ id <$> dockItems three_items) as Hvoid
    by (left; discriminate).
  split; [exact Hvoid|].
  destruct (removal_void chrome_app None three_items Hvoid) as (Hsame & _).
  exact Hsame.
Defined.

(** X6 at the Chrome app added to the default items. *)
Lemma add_then_delete_witness :
  (describe sample_host ChooseApp chrome_answers (provider_with getDefaultItems)).1
  = Some (mkDockItem "app-5" app "Chrome" (Some "Chrome") None None
                     (Some "$(chrome)") None None (Some "chrome.open"))
  ∧ ("app-5" ∉ id <$> dockItems (provider_with getDefaultItems))
  ∧ dockItems
      (deleteItem (mkDockItem "app-5" app "Chrome" (Some "Chrome") None None
                              (Some "$(chrome)") None None (Some "chrome.open"))
                  (Some "Yes")
                  (showAddItemDialog sample_host (Some ChooseApp) chrome_answers
                                     (provider_with getDefaultItems)))
    = getDefaultItems.
Proof.
  assert ("app-5" ∉ id <$> dockItems (provider_with getDefaultItems)) as Hfresh
    by (apply (bool_decide_unpack _); by vm_compute).
  split_and!; [reflexivity|exact Hfresh|].
  destruct (add_then_delete sample_host ChooseApp chrome_answers
              (provider_with getDefaultItems) _ eq_refl) as (Hrestore & _).
  exact (Hrestore Hfresh).
Defined.

(** X8 at the first child of a folder group with two links. *)
Lemma removeItemFromFolder_takes_first_child_witness :
  deref (dockItems (provider_with [reading_group])) (TopLevel 0)
  = Some reading_group
  ∧ findIndex (has_id (id docs_link)) (default [] (children reading_group))
    = Some 0
  ∧ children <$>
      deref (dockItems (removeItemFromFolder docs_link (TopLevel 0) (Some "Yes")
                          (provider_with [reading_group])))
            (TopLevel 0)
    = Some (Some (drop 1 (default [] (children reading_group)))).
Proof.
  split_and!; [reflexivity..|].
  destruct (removeItemFromFolder_takes_first_child docs_link (TopLevel 0)
              (provider_with [reading_group]) reading_group eq_refl)
    as (Hremoved & _).
  destruct (Hremoved _ 0 eq_refl eq_refl) as (Hchildren & _).
  exact Hchildren.
Defined.

(** X9 at Blue and Red. *)
Lemma picker_colors_are_known_witness :
  PickBlue ≠ PickDefault ∧ PickBlue ≠ PickRed
  ∧ pick_value PickBlue ≠ pick_value PickRed
  ∧ picked_color (Some PickBlue) = Some "#007ACC".
Proof.
  destruct (picker_colors_are_known PickBlue PickRed)
    as (_ & Hdistinct & _ & Hstored).
  split_and!; [discriminate|discriminate| |].
  - destruct (Hdistinct ltac:(discriminate)) as (Hvalue & _). exact Hvalue.
  - exact (Hstored ltac:(discriminate)).
Defined.

(** X10 at the Work group, recolored green. *)
Lemma changeFolderColor_sets_color_witness :
  deref (dockItems (provider_with [work_group])) (TopLevel 0) = Some work_group
  ∧ color <$> deref (dockItems (changeFolderColor (TopLevel 0) (Some PickGreen)
                                                  (provider_with [work_group])))
                    (TopLevel 0)
    = Some (Some "#28A745").
Proof.
  split; [reflexivity|].
  destruct (changeFolderColor_sets_color (TopLevel 0) PickGreen
              (provider_with [work_group]) work_group eq_refl) as (-> & _).
  reflexivity.
Defined.

(** X11 at a first start and at a start with one stored link. *)
Lemma initialize_loads_or_seeds_witness :
  default [] (cfg_items (configuration fresh_provider)) = []
  ∧ dockItems (initialize fresh_provider) = getDefaultItems
  ∧ default [] (cfg_items (configuration (provider_with [docs_link]))) ≠ []
  ∧ dockItems (initialize (provider_with [docs_link])) = [docs_link].
Proof.
  destruct (initialize_loads_or_seeds fresh_provider) as (_ & Hseed & _).
  destruct (initialize_loads_or_seeds (provider_with [docs_link]))
    as (Hload & _).
  split_and!; [reflexivity| |discriminate|].
  - destruct (Hseed eq_refl) as (Hdefaults & _). exact Hdefaults.
  - destruct (Hload ltac:(discriminate)) as (Hstored & _). exact Hstored.
Defined.

(** X12 at a list of three that is saved and loaded again. *)
Lemma restart_restores_saved_list_witness :
  configuration (saveConfiguration three_items)
  = configuration (saveConfiguration three_items)
  ∧ dockItems (initialize (saveConfiguration three_items))
    = dockItems three_items.
Proof.
  split; [reflexivity|].
  exact (restart_restores_saved_list three_items (saveConfiguration three_items)
           eq_refl).
Defined.

(** X15 at the Chrome app. *)
Lemma generated_ids_are_not_default_witness :
  (describe sample_host ChooseApp chrome_answers (provider_with getDefaultItems)).1
  = Some (mkDockItem "app-5" app "Chrome" (Some "Chrome") None None
                     (Some "$(chrome)") None None (Some "chrome.open"))
  ∧ ("app-5" ∉ defaultItemIds).
Proof.
  split; [reflexivity|].
  destruct (generated_ids_are_not_default sample_host) as (Hadded & _).
  exact (Hadded ChooseApp chrome_answers (provider_with getDefaultItems) _
                eq_refl).
Defined.

(** X17 at the default items followed by the Chrome app, which the sample
    replies delete. *)
Lemma manage_dialog_keeps_default_items_witness :
  guarded (dockItems (provider_with (getDefaultItems ++ [chrome_app])))
  ∧ dockItems (showManageItemsDialog sample_host sample_replies
                 (provider_with (getDefaultItems ++ [chrome_app])))
    = getDefaultItems
  ∧ default_items
      (dockItems (showManageItemsDialog sample_host sample_replies
                    (provider_with (getDefaultItems ++ [chrome_app]))))
    ≡ₚ default_items (dockItems (provider_with (getDefaultItems ++ [chrome_app]))).
Proof.
  assert (guarded (dockItems (provider_with (getDefaultItems ++ [chrome_app]))))
    as Hg by (unfold guarded; simpl; by repeat constructor).
  split_and!; [exact Hg|reflexivity|].
  destruct (manage_dialog_keeps_default_items sample_host sample_replies
              (provider_with (getDefaultItems ++ [chrome_app])) Hg)
    as (Hsame & _).
  exact Hsame.
Defined.

(** X18 at a first start followed by an addition. *)
Lemma session_is_saved_witness :
  cfg_items (configuration
               (session sample_host [(AddItemCommand, sample_replies)]
                        fresh_provider))
  = Some (dockItems (session sample_host [(AddItemCommand, sample_replies)]
                             fresh_provider))
  ∧ length (dockItems
              (initialize
                 (session sample_host [(AddItemCommand, sample_replies)]
                          fresh_provider)))
    = 5.
Proof.
  destruct (session_is_saved sample_host [(AddItemCommand, sample_replies)]
              fresh_provider
              (session sample_host [(AddItemCommand, sample_replies)]
                       fresh_provider)) as (Hsaved & _ & _ & _ & Hrestart).
  split; [exact Hsaved|].
  rewrite (Hrestart eq_refl). reflexivity.
Defined.

(** X19 at a first start followed by an addition and a removal. *)
Lemma session_keeps_default_items_witness :
  default [] (cfg_items (configuration fresh_provider)) = []
  ∧ default_items
      (dockItems (session sample_host
                    [(AddItemCommand, sample_replies);
                     (ConfigureCommand, sample_replies)] fresh_provider))
    ≡ₚ getDefaultItems.
Proof.
  split; [reflexivity|].
  destruct (session_keeps_default_items sample_host
              [(AddItemCommand, sample_replies);
               (ConfigureCommand, sample_replies)] fresh_provider)
    as (Hfresh & _).
  destruct (Hfresh eq_refl) as (Hdefaults & _). exact Hdefaults.
Defined.

Lemma sample_clock_never_repeats : Inj (=) (=) (Date_now sample_host).
Proof. intros x y Heq. simpl in Heq. lia. Qed.

(** X20 at the clock that reads 5, 6, 7, ... and two additions. *)
Lemma session_ids_are_unique_witness :
  Inj (=) (=) (Date_now sample_host)
  ∧ default [] (cfg_items (configuration fresh_provider)) = []
  ∧ NoDup (id <$> dockItems
                    (session sample_host
                       [(AddItemCommand, sample_replies);
                        (AddItemCommand, sample_replies)] fresh_provider)).
Proof.
  split_and!; [exact sample_clock_never_repeats|reflexivity|].
  exact (session_ids_are_unique sample_host sample_clock_never_repeats
           [(AddItemCommand, sample_replies); (AddItemCommand, sample_replies)]
           fresh_provider eq_refl).
Defined.


(** X22 at a folder group with two links, with the first one picked. *)
Lemma showFolderMenu_opens_child_witness :
  deref (dockItems (provider_with [reading_group])) (TopLevel 0)
  = Some reading_group
  ∧ default [] (children reading_group) ≠ []
  ∧ showFolderMenu sample_host (TopLevel 0)
      (mkReplies None None chrome_answers NotFound None None None clear_command
                 None None (Some 0))
      (provider_with [reading_group])
    = (provider_with [reading_group],
       Some (mkCommand "vscode.open" "Docs"
                       (Some [ArgUri (UriParse "https://x.test")]))).
Proof.
  split_and!; [reflexivity|discriminate|].
  destruct (showFolderMenu_opens_child sample_host (TopLevel 0)
              (mkReplies None None chrome_answers NotFound None None None
                         clear_command None None (Some 0))
              (provider_with [reading_group]) reading_group
              (default [] (children reading_group)) eq_refl eq_refl
              ltac:(discriminate)) as (Hchild & _).
  exact (Hchild 0 docs_link eq_refl eq_refl).
Defined.


(** X24 at five items with [maxItems] set to minus one. *)
Lemma createDockItems_negative_maxItems_witness :
  (-1 < 0)%Z
  ∧ get_maxItems (configuration five_items_hide_one) = (-1)%Z
  ∧ length (statusBarItems (createDockItems five_items_hide_one)) = 5.
Proof.
  split_and!; [lia|reflexivity|].
  destruct (createDockItems_negative_maxItems five_items_hide_one (-1)
              ltac:(lia) eq_refl) as (_ & Hlen).
  exact Hlen.
Defined.

(** X25 at five items of which two are shown. *)
Lemma createDockItems_priorities_witness :
  sb_priority <$> statusBarItems (createDockItems five_items_max_two)
  = [1000%Z; 999%Z; 500%Z]
  ∧ (∀ k sb, k < 2 →
       statusBarItems (createDockItems five_items_max_two) !! k = Some sb →
       (500 < sb_priority sb)%Z).
Proof.
  split; [reflexivity|].
  destruct (createDockItems_priorities five_items_max_two) as (_ & _ & Hrank).
  apply Hrank. simpl. lia.
Defined.

(** X26 at the first child of a folder group with two links, moved down. *)
Lemma moveItemInFolder_permutes_children_witness :
  deref (dockItems (provider_with [reading_group])) (TopLevel 0)
  = Some reading_group
  ∧ ∃ cs',
      deref (dockItems (moveItemInFolder docs_link (TopLevel 0) 1
                          (provider_with [reading_group]))) (TopLevel 0)
      = Some (set_children (Some cs') reading_group)
      ∧ cs' ≡ₚ default [] (children reading_group).
Proof.
  split; [reflexivity|].
  exact (moveItemInFolder_permutes_children docs_link (TopLevel 0) 1
           (provider_with [reading_group]) reading_group
           (default [] (children reading_group)) eq_refl eq_refl).
Defined.

(** X27 at a folder group with an empty list of children. *)
Lemma renderItem_inert_iff_witness :
  type work_group = folder_group
  ∧ children work_group = Some []
  ∧ sb_command (renderItem true true 2 work_group)
    = Some (CommandObject
              (mkCommand "vscode-dock.showFolderMenu" "Work"
                         (Some [ArgItem (TopLevel 2)]))).
Proof.
  split_and!; [reflexivity|reflexivity|].
  exact (proj2 (renderItem_inert_iff true true 2 work_group) []
               eq_refl eq_refl).
Defined.
